(** * Log shipping: line parsing and record enrichment

    A shallow embedding of the record pipeline of [src/app.ts]
    ([isRequestLogEntry], [fieldValue], [parseReportField],
    [lambdaRequestLogData], [parseMessageJson], [parseNodeLogFormat],
    [parseLambdaLogLine], [createStructuredLog]) together with the
    properties its specification states about it.

    Conventions of the embedding.
    - A JavaScript string is a [string]: every character stands for one
      UTF-16 code unit below 256.  Lines containing other code units are
      outside the model.
    - A JavaScript object used as a dictionary is a [gmap string Value];
      the order in which properties were created is not recorded.  The
      supplemental mapping, whose key order drives the enrichment loop, is
      an association list in [Object.keys] order.
    - An exception is an explicit [Throw] in the [result] type.
    - [JSON.parse] and [Date.parse] are operations of the host engine; the
      pipeline is written against the [Engine] interface, and one reference
      engine is defined for evaluating it on concrete lines. *)

From Stdlib Require Import ZArith String Ascii List Lia Permutation.
From stdpp Require Import gmap strings list fin_maps pretty.

Local Open Scope string_scope.

(* ===================================================================== *)
(** ** String.prototype operations used by the source                    *)
(* ===================================================================== *)

Module JsString.

(** White space removed by [trim], restricted to code units below 256:
    TAB, LF, VT, FF, CR, SPACE and NO-BREAK SPACE. *)
Definition isWhiteSpace (c : ascii) : bool :=
  let n := nat_of_ascii c in
  (n =? 9)%nat || (n =? 10)%nat || (n =? 11)%nat || (n =? 12)%nat
  || (n =? 13)%nat || (n =? 32)%nat || (n =? 160)%nat.

Definition isEmpty (s : string) : bool :=
  match s with EmptyString => true | String _ _ => false end.

Fixpoint trimStart (s : string) : string :=
  match s with
  | EmptyString => EmptyString
  | String c r => if isWhiteSpace c then trimStart r else s
  end.

Fixpoint trimEnd (s : string) : string :=
  match s with
  | EmptyString => EmptyString
  | String c r =>
      let r' := trimEnd r in
      if isEmpty r' && isWhiteSpace c then EmptyString else String c r'
  end.

(** [s.trim()] *)
Definition trim (s : string) : string := trimEnd (trimStart s).

(** [s.startsWith(p)] *)
Definition startsWith (s p : string) : bool := String.prefix p s.

Fixpoint indexOf_from (s sub : string) (i : Z) : Z :=
  if String.prefix sub s then i
  else match s with
       | EmptyString => (-1)%Z
       | String _ r => indexOf_from r sub (i + 1)%Z
       end.

(** [s.indexOf(sub)]: the first position of [sub], or -1. *)
Definition indexOf (s sub : string) : Z := indexOf_from s sub 0%Z.

Definition size (s : string) : Z := Z.of_nat (String.length s).

(** [s.substr(start, length)], with [None] for an omitted length: a
    negative start counts from the end, the length is clamped to what
    is left of the string. *)
Definition substr (s : string) (start : Z) (len : option Z) : string :=
  let intStart :=
    if (start <? 0)%Z then Z.max (size s + start) 0 else Z.min start (size s) in
  let intLength :=
    match len with
    | None => size s
    | Some l => Z.min (Z.max l 0) (size s)
    end in
  let intEnd := Z.min (intStart + intLength) (size s) in
  if (intEnd <=? intStart)%Z then EmptyString
  else String.substring (Z.to_nat intStart) (Z.to_nat (intEnd - intStart)) s.

(** [s.split(sep)] for a one-character separator; never empty. *)
Fixpoint split (sep : ascii) (s : string) : list string :=
  match s with
  | EmptyString => [EmptyString]
  | String c r =>
      if Ascii.eqb c sep then EmptyString :: split sep r
      else match split sep r with
           | h :: t => String c h :: t
           | [] => [String c EmptyString]
           end
  end.

(** [parts.join(sep)] *)
Definition join (sep : string) (parts : list string) : string :=
  String.concat sep parts.

(** [s.replace(/ /g, '')] *)
Fixpoint removeSpaces (s : string) : string :=
  match s with
  | EmptyString => EmptyString
  | String c r =>
      if Ascii.eqb c " "%char then removeSpaces r else String c (removeSpaces r)
  end.

(** [toLowerCase] on one code unit below 256: A-Z and the accented
    capitals U+00C0..U+00DE (the multiplication sign excepted) move up
    by 32. *)
Definition lowerChar (c : ascii) : ascii :=
  let n := nat_of_ascii c in
  if ((65 <=? n) && (n <=? 90))%nat
     || ((192 <=? n) && (n <=? 222) && negb (n =? 215))%nat
  then ascii_of_nat (n + 32) else c.

(** [s.charAt(0).toLowerCase() + s.slice(1)] *)
Definition lowerFirst (s : string) : string :=
  match s with
  | EmptyString => EmptyString
  | String c r => String (lowerChar c) r
  end.

Definition isDigit (c : ascii) : bool :=
  let n := nat_of_ascii c in ((48 <=? n) && (n <=? 57))%nat.

Definition digitValue (c : ascii) : Z := Z.of_nat (nat_of_ascii c - 48).

(** The longest run of decimal digits at the front of [s], and the rest. *)
Fixpoint spanDigits (s : string) : string * string :=
  match s with
  | EmptyString => (EmptyString, EmptyString)
  | String c r =>
      if isDigit c then let '(d, rest) := spanDigits r in (String c d, rest)
      else (EmptyString, s)
  end.

Fixpoint digitsValue_acc (s : string) (acc : Z) : Z :=
  match s with
  | EmptyString => acc
  | String c r => digitsValue_acc r (10 * acc + digitValue c)%Z
  end.

(** The number a string of decimal digits denotes (0 for the empty one). *)
Definition digitsValue (s : string) : Z := digitsValue_acc s 0%Z.

End JsString.


(* ===================================================================== *)
(** ** Exceptions                                                         *)
(* ===================================================================== *)

Inductive exn : Type := TypeError | RangeError.

(** The outcome of an expression that may throw. *)
Inductive result (A : Type) : Type :=
| Ok (a : A)
| Throw (e : exn).

Arguments Ok {A} a.
Arguments Throw {A} e.

Definition bind {A B : Type} (m : result A) (k : A -> result B) : result B :=
  match m with
  | Ok a => k a
  | Throw e => Throw e
  end.

Notation "'do' x <- m ; k" := (bind m (fun x => k))
  (at level 10, x name, m at level 100, k at level 200).

(** [xs.map(f)] for an [f] that may throw: the first exception aborts. *)
Fixpoint mapM {A B : Type} (f : A -> result B) (xs : list A) : result (list B) :=
  match xs with
  | [] => Ok []
  | x :: r => do y <- f x; do ys <- mapM f r; Ok (y :: ys)
  end.

(* ===================================================================== *)
(** ** Numbers                                                            *)
(* ===================================================================== *)

Module JsNumber.

(** A number value.  A finite value is kept as the exact decimal
    [mantissa * 10 ^ exponent] its literal denotes, without trailing
    zeros in the mantissa; rounding to the nearest binary64 value is
    applied only where it changes what the program does with the number:
    a literal that rounds to zero (falsy) or to an infinity. *)
Inductive number : Type :=
| NaN
| Infinity (negative : bool)
| Decimal (mantissa exponent : Z).

Fixpoint stripZeros (fuel : nat) (m e : Z) : Z * Z :=
  match fuel with
  | O => (m, e)
  | S f =>
      if (m =? 0)%Z then (0, 0)%Z
      else if (m mod 10 =? 0)%Z then stripZeros f (m / 10)%Z (e + 1)%Z
      else (m, e)
  end.

(** [|m * 10^e| <= 2^-1075]: half the least positive binary64 value. *)
Definition roundsToZero (m e : Z) : bool :=
  (e <? 0)%Z && (Z.abs m * 2 ^ 1075 <=? 10 ^ (- e))%Z.

(** [|m * 10^e| >= 2^1024 - 2^970]: past the greatest finite binary64
    value by half a unit in the last place. *)
Definition roundsToInfinity (m e : Z) : bool :=
  if (0 <=? e)%Z then (2 ^ 1024 - 2 ^ 970 <=? Z.abs m * 10 ^ e)%Z
  else ((2 ^ 1024 - 2 ^ 970) * 10 ^ (- e) <=? Z.abs m)%Z.

(** The number denoted by [digits] decimal digits of value [m], scaled by
    [10^e]. *)
Definition ofDecimal (digits : nat) (m e : Z) : number :=
  if (m =? 0)%Z then Decimal 0 0
  else if roundsToZero m e then Decimal 0 0
  else if roundsToInfinity m e then Infinity (m <? 0)%Z
  else let '(m', e') := stripZeros digits m e in Decimal m' e'.

(** [!!n] *)
Definition truthy (n : number) : bool :=
  match n with
  | NaN => false
  | Infinity _ => true
  | Decimal m _ => negb (m =? 0)%Z
  end.

Definition signed (negative : bool) (z : Z) : Z := if negative then (- z)%Z else z.

(** An optional sign: whether it is a minus, and the rest. *)
Definition readSign (s : string) : bool * string :=
  match s with
  | String "-" r => (true, r)
  | String "+" r => (false, r)
  | _ => (false, s)
  end.

(** An optional exponent part [e|E [+|-] digits] at the front of [s]; 0
    when there is none or it has no digit. *)
Definition readExponent (s : string) : Z :=
  match s with
  | String c r =>
      if Ascii.eqb c "e" || Ascii.eqb c "E" then
        let '(neg, r1) := readSign r in
        let '(ds, _) := JsString.spanDigits r1 in
        if JsString.isEmpty ds then 0%Z else signed neg (JsString.digitsValue ds)
      else 0%Z
  | EmptyString => 0%Z
  end.

(** [parseFloat(s)]: leading white space is skipped, the longest prefix
    that is a decimal literal is read, and [NaN] results when there is
    none. *)
Definition parseFloat (s : string) : number :=
  let '(neg, t) := readSign (JsString.trimStart s) in
  if String.prefix "Infinity" t then Infinity neg
  else
    let '(ip, t2) := JsString.spanDigits t in
    let '(fp, t3) :=
      match t2 with
      | String "." r => JsString.spanDigits r
      | _ => (EmptyString, t2)
      end in
    if JsString.isEmpty ip && JsString.isEmpty fp then NaN
    else
      ofDecimal (String.length ip + String.length fp)
                (signed neg (JsString.digitsValue (ip ++ fp)))
                (readExponent t3 - Z.of_nat (String.length fp)).

End JsNumber.

(* ===================================================================== *)
(** ** Values                                                             *)
(* ===================================================================== *)

(** The values a record field can hold: what [JSON.parse] produces, what
    the parsers build, and [VNative name], the built-in object that a
    plain object inherits from [Object.prototype] under the member
    [name]. *)
#[local] Unset Elimination Schemes.
Inductive Value : Type :=
| VNull
| VBool (b : bool)
| VNum (n : JsNumber.number)
| VStr (s : string)
| VArr (items : list Value)
| VObj (fields : gmap string Value)
| VNative (name : string).
#[local] Set Elimination Schemes.

(** [!!v] *)
Definition truthy (v : Value) : bool :=
  match v with
  | VNull => false
  | VBool b => b
  | VNum n => JsNumber.truthy n
  | VStr s => negb (JsString.isEmpty s)
  | VArr _ | VObj _ | VNative _ => true
  end.

(** The members every plain object inherits from [Object.prototype]. *)
Definition objectPrototypeMembers : list string :=
  [ "constructor"; "__defineGetter__"; "__defineSetter__"; "hasOwnProperty";
    "__lookupGetter__"; "__lookupSetter__"; "isPrototypeOf";
    "propertyIsEnumerable"; "toString"; "valueOf"; "__proto__";
    "toLocaleString" ].

(** [o[k]] on a plain object: an own property, else an inherited member,
    else [undefined] ([None]). *)
Definition getProp (o : gmap string Value) (k : string) : option Value :=
  match o !! k with
  | Some v => Some v
  | None =>
      if bool_decide (k ∈ objectPrototypeMembers) then Some (VNative k) else None
  end.

(** [o[k] = v] on a plain object: an own property is created or
    updated, unless [k] is [__proto__] and not an own property.  The
    setter inherited from [Object.prototype] runs in that case; it
    creates no own property, and it ignores a value that is not an
    object, which is all the source can assign under a key that may be
    [__proto__] (the strings of the supplemental mapping, the strings
    and numbers of the report fields). *)
Definition setProp (o : gmap string Value) (k : string) (v : Value)
  : gmap string Value :=
  if bool_decide (k = "__proto__") && negb (bool_decide (is_Some (o !! k)))
  then o else <[k := v]> o.

(** [!!x] for a possibly undefined [x]. *)
Definition toBoolean (x : option Value) : bool :=
  match x with
  | Some v => truthy v
  | None => false
  end.

Fixpoint indexed {A : Type} (f : A -> Value) (i : nat) (xs : list A)
  : gmap string Value :=
  match xs with
  | [] => ∅
  | x :: r => <[pretty i := f x]> (indexed f (S i) r)
  end.

(** The own enumerable properties copied by [{...v}]: the fields of an
    object, the elements of an array and the characters of a string under
    their indices, nothing for the other values. *)
Definition spreadProps (v : Value) : gmap string Value :=
  match v with
  | VObj o => o
  | VArr items => indexed (fun x => x) 0 items
  | VStr s => indexed (fun c => VStr (String c EmptyString)) 0 (list_ascii_of_string s)
  | _ => ∅
  end.

(* ===================================================================== *)
(** ** Date.prototype.toISOString                                         *)
(* ===================================================================== *)

Module JsDate.

Definition msPerDay : Z := 86400000.

(** Time values range over 100,000,000 days either side of the epoch. *)
Definition maxTime : Z := 8640000000000000.

Definition isValidTime (t : Z) : bool := ((- maxTime <=? t) && (t <=? maxTime))%Z.

(** Year, month and day of a day number counted from 1970-01-01, in the
    proleptic Gregorian calendar. *)
Definition civilFromDays (days : Z) : Z * Z * Z :=
  let z := (days + 719468)%Z in
  let era := (z / 146097)%Z in
  let doe := (z - era * 146097)%Z in
  let yoe := ((doe - doe / 1460 + doe / 36524 - doe / 146096) / 365)%Z in
  let doy := (doe - (365 * yoe + yoe / 4 - yoe / 100))%Z in
  let mp := ((5 * doy + 2) / 153)%Z in
  let d := (doy - (153 * mp + 2) / 5 + 1)%Z in
  let m := (if mp <? 10 then mp + 3 else mp - 9)%Z in
  let y := (yoe + era * 400 + (if m <=? 2 then 1 else 0))%Z in
  (y, m, d).

(** The day number of a calendar date, inverse of [civilFromDays]. *)
Definition daysFromCivil (y m d : Z) : Z :=
  let y' := (if m <=? 2 then y - 1 else y)%Z in
  let era := (y' / 400)%Z in
  let yoe := (y' - era * 400)%Z in
  let doy := ((153 * (if 2 <? m then m - 3 else m + 9) + 2) / 5 + d - 1)%Z in
  let doe := (yoe * 365 + yoe / 4 - yoe / 100 + doy)%Z in
  (era * 146097 + doe - 719468)%Z.

Definition digit (n : Z) : string :=
  String (ascii_of_nat (48 + Z.to_nat (n mod 10))) EmptyString.

Definition pad2 (n : Z) : string := digit (n / 10) ++ digit n.
Definition pad3 (n : Z) : string := digit (n / 100) ++ pad2 n.
Definition pad4 (n : Z) : string := digit (n / 1000) ++ pad3 n.
Definition pad6 (n : Z) : string := pad2 (n / 10000) ++ pad4 n.

(** Four digits for the years 0 to 9999, a sign and six digits otherwise. *)
Definition yearString (y : Z) : string :=
  if ((0 <=? y) && (y <=? 9999))%Z then pad4 y
  else (if (y <? 0)%Z then "-" else "+") ++ pad6 (Z.abs y).

Definition isoString (t : Z) : string :=
  let '(y, m, d) := civilFromDays (t / msPerDay) in
  let ms := (t mod msPerDay)%Z in
  yearString y ++ "-" ++ pad2 m ++ "-" ++ pad2 d ++ "T"
  ++ pad2 (ms / 3600000) ++ ":" ++ pad2 (ms / 60000 mod 60) ++ ":"
  ++ pad2 (ms / 1000 mod 60) ++ "." ++ pad3 (ms mod 1000) ++ "Z".

(** [new Date(t).toISOString()] for an integer [t]: a [RangeError] when [t]
    is not a time value. *)
Definition toISOString (t : Z) : result string :=
  if isValidTime t then Ok (isoString t) else Throw RangeError.

End JsDate.

(* ===================================================================== *)
(** ** The host engine                                                    *)
(* ===================================================================== *)

(** The two engine operations the source calls.  [JSON_parse] returns
    [None] where [JSON.parse] throws its [SyntaxError]; [Date_parse]
    returns [None] where [Date.parse] returns [NaN].  Which strings
    [Date.parse] accepts beyond the standard date-time format is left to
    each engine, so the pipeline is stated for an arbitrary one. *)
Class Engine : Type := {
  JSON_parse : string -> option Value;
  Date_parse : string -> option Z
}.

(** *** A reference [JSON.parse]

    The grammar of JSON texts over 8-bit strings.  A [\u] escape above
    [00FF] denotes a code unit that a [string] cannot hold: the
    reference parser rejects a text with such an escape, where
    [JSON.parse] accepts it.  The properties of the pipeline are stated
    for every engine and do not depend on this parser; it serves to run
    the pipeline on the sample lines. *)

Module Json.

(** White space between tokens: space, TAB, LF, CR. *)
Definition isWs (c : ascii) : bool :=
  Ascii.eqb c " " || Ascii.eqb c "009" || Ascii.eqb c "010" || Ascii.eqb c "013".

Fixpoint skipWs (s : string) : string :=
  match s with
  | String c r => if isWs c then skipWs r else s
  | EmptyString => EmptyString
  end.

Definition hexValue (c : ascii) : option Z :=
  let n := nat_of_ascii c in
  if ((48 <=? n) && (n <=? 57))%nat then Some (Z.of_nat (n - 48))
  else if ((97 <=? n) && (n <=? 102))%nat then Some (Z.of_nat (n - 87))
  else if ((65 <=? n) && (n <=? 70))%nat then Some (Z.of_nat (n - 55))
  else None.

(** The code unit of a [\uXXXX] escape; [None] for a malformed escape and
    for a code unit that a [string] cannot hold. *)
Definition hex4 (a b c d : ascii) : option ascii :=
  match hexValue a, hexValue b, hexValue c, hexValue d with
  | Some x, Some y, Some z, Some w =>
      let code := (((x * 16 + y) * 16 + z) * 16 + w)%Z in
      if (code <? 256)%Z then Some (ascii_of_nat (Z.to_nat code)) else None
  | _, _, _, _ => None
  end.

Definition escapeChar (c : ascii) : option ascii :=
  if Ascii.eqb c "034" then Some "034"%char
  else if Ascii.eqb c "\" then Some "\"%char
  else if Ascii.eqb c "/" then Some "/"%char
  else if Ascii.eqb c "b" then Some "008"%char
  else if Ascii.eqb c "f" then Some "012"%char
  else if Ascii.eqb c "n" then Some "010"%char
  else if Ascii.eqb c "r" then Some "013"%char
  else if Ascii.eqb c "t" then Some "009"%char
  else None.

(** The characters of a string literal after its opening quote, up to the
    closing quote, and what follows it. *)
Fixpoint parseChars (s : string) : option (string * string) :=
  match s with
  | EmptyString => None
  | String c r =>
      if Ascii.eqb c "034" then Some (EmptyString, r)
      else if Ascii.eqb c "\" then
        match r with
        | String "u" (String h1 (String h2 (String h3 (String h4 r')))) =>
            match hex4 h1 h2 h3 h4, parseChars r' with
            | Some u, Some (body, rest) => Some (String u body, rest)
            | _, _ => None
            end
        | String e r' =>
            match escapeChar e, parseChars r' with
            | Some u, Some (body, rest) => Some (String u body, rest)
            | _, _ => None
            end
        | EmptyString => None
        end
      else if (nat_of_ascii c <? 32)%nat then None
      else match parseChars r with
           | Some (body, rest) => Some (String c body, rest)
           | None => None
           end
  end.

(** A number literal: an optional minus, an integer part without a
    leading zero (or 0 alone), an optional fraction with at least one
    digit, an optional exponent with at least one digit. *)
Definition parseNumber (s : string) : option (JsNumber.number * string) :=
  let '(neg, t) := match s with String "-" r => (true, r) | _ => (false, s) end in
  let '(ip, t1) :=
    match t with
    | String "0" r => ("0", r)
    | _ => JsString.spanDigits t
    end in
  if JsString.isEmpty ip then None
  else
    let frac :=
      match t1 with
      | String "." r =>
          let '(fp, r') := JsString.spanDigits r in
          if JsString.isEmpty fp then None else Some (fp, r')
      | _ => Some (EmptyString, t1)
      end in
    match frac with
    | None => None
    | Some (fp, t2) =>
        let expo :=
          match t2 with
          | String c r =>
              if Ascii.eqb c "e" || Ascii.eqb c "E" then
                let '(eneg, r1) := JsNumber.readSign r in
                let '(ds, r2) := JsString.spanDigits r1 in
                if JsString.isEmpty ds then None
                else Some (JsNumber.signed eneg (JsString.digitsValue ds), r2)
              else Some (0%Z, t2)
          | EmptyString => Some (0%Z, t2)
          end in
        match expo with
        | None => None
        | Some (ex, t3) =>
            Some (JsNumber.ofDecimal
                    (String.length ip + String.length fp)
                    (JsNumber.signed neg (JsString.digitsValue (ip ++ fp)))
                    (ex - Z.of_nat (String.length fp)),
                  t3)
        end
    end.

Definition dropPrefix (p s : string) : option string :=
  if String.prefix p s
  then Some (String.substring (String.length p) (String.length s - String.length p) s)
  else None.

(** One value at the front of [s], and the rest.  [parseElements] reads
    the elements of an array after its first one is due, [parseMembers]
    the members of an object; a repeated key keeps its last value.  The
    fuel bounds the number of nested calls. *)
Fixpoint parseValue (fuel : nat) (s : string) : option (Value * string) :=
  match fuel with
  | O => None
  | S n =>
      match skipWs s with
      | String "{" r =>
          match skipWs r with
          | String "}" r' => Some (VObj ∅, r')
          | r' => parseMembers n r' ∅
          end
      | String "[" r =>
          match skipWs r with
          | String "]" r' => Some (VArr [], r')
          | r' => parseElements n r' []
          end
      | String "034" r =>
          match parseChars r with
          | Some (body, rest) => Some (VStr body, rest)
          | None => None
          end
      | String "t" _ as t =>
          match dropPrefix "true" t with Some r => Some (VBool true, r) | None => None end
      | String "f" _ as t =>
          match dropPrefix "false" t with Some r => Some (VBool false, r) | None => None end
      | String "n" _ as t =>
          match dropPrefix "null" t with Some r => Some (VNull, r) | None => None end
      | t =>
          match parseNumber t with
          | Some (x, r) => Some (VNum x, r)
          | None => None
          end
      end
  end
with parseElements (fuel : nat) (s : string) (acc : list Value)
  : option (Value * string) :=
  match fuel with
  | O => None
  | S n =>
      match parseValue n s with
      | Some (v, r) =>
          match skipWs r with
          | String "," r' => parseElements n r' (acc ++ [v])
          | String "]" r' => Some (VArr (acc ++ [v]), r')
          | _ => None
          end
      | None => None
      end
  end
with parseMembers (fuel : nat) (s : string) (acc : gmap string Value)
  : option (Value * string) :=
  match fuel with
  | O => None
  | S n =>
      match skipWs s with
      | String "034" r =>
          match parseChars r with
          | Some (key, r1) =>
              match skipWs r1 with
              | String ":" r2 =>
                  match parseValue n r2 with
                  | Some (v, r3) =>
                      match skipWs r3 with
                      | String "," r4 => parseMembers n r4 (<[key := v]> acc)
                      | String "}" r4 => Some (VObj (<[key := v]> acc), r4)
                      | _ => None
                      end
                  | None => None
                  end
              | _ => None
              end
          | None => None
          end
      | _ => None
      end
  end.

(** [JSON.parse(text)]: one value, surrounded by white space only. *)
Definition parse (text : string) : option Value :=
  match parseValue (2 * String.length text + 2) text with
  | Some (v, rest) => if JsString.isEmpty (skipWs rest) then Some v else None
  | None => None
  end.

End Json.

(** *** A reference [Date.parse] *)

Module IsoDate.

(** [n] decimal digits at the front of [s]: their value and the rest. *)
Fixpoint digits (n : nat) (s : string) (acc : Z) : option (Z * string) :=
  match n with
  | O => Some (acc, s)
  | S k =>
      match s with
      | String c r =>
          if JsString.isDigit c then digits k r (10 * acc + JsString.digitValue c)%Z
          else None
      | EmptyString => None
      end
  end.

Definition expect (c : ascii) (s : string) : option string :=
  match s with
  | String c' r => if Ascii.eqb c c' then Some r else None
  | EmptyString => None
  end.

Definition isLeap (y : Z) : bool :=
  ((y mod 4 =? 0) && (negb (y mod 100 =? 0) || (y mod 400 =? 0)))%Z.

Definition daysInMonth (y m : Z) : Z :=
  if (m =? 2)%Z then (if isLeap y then 29 else 28)%Z
  else if ((m =? 4) || (m =? 6) || (m =? 9) || (m =? 11))%Z then 30%Z
  else 31%Z.

(** The UTC form [YYYY-MM-DDTHH:mm:ssZ] of the standard date-time format,
    with an optional [.sss]: the time value it denotes.  Every engine
    accepts this form; engines accept others too. *)
Definition parse (s : string) : option Z :=
  '(y, s) ← digits 4 s 0%Z;
  s ← expect "-" s;
  '(m, s) ← digits 2 s 0%Z;
  s ← expect "-" s;
  '(d, s) ← digits 2 s 0%Z;
  s ← expect "T" s;
  '(hh, s) ← digits 2 s 0%Z;
  s ← expect ":" s;
  '(mm, s) ← digits 2 s 0%Z;
  s ← expect ":" s;
  '(ss, s) ← digits 2 s 0%Z;
  '(ms, s) ← match s with
             | String "." r => digits 3 r 0%Z
             | _ => Some (0%Z, s)
             end;
  s ← expect "Z" s;
  if JsString.isEmpty s
     && ((1 <=? m) && (m <=? 12) && (1 <=? d) && (d <=? daysInMonth y m)
         && (hh <=? 23) && (mm <=? 59) && (ss <=? 59))%Z
  then Some (JsDate.daysFromCivil y m d * JsDate.msPerDay
             + hh * 3600000 + mm * 60000 + ss * 1000 + ms)%Z
  else None.

End IsoDate.

(** The reference engine: used to run the pipeline on concrete lines. *)
#[export] Instance referenceEngine : Engine := {
  JSON_parse := Json.parse;
  Date_parse := IsoDate.parse
}.

(* ===================================================================== *)
(** ** The pipeline of [src/app.ts]                                       *)
(* ===================================================================== *)

(** [CloudWatchLogsLogEvent]: one raw log entry of a decoded batch.  The
    timestamp is a whole number of milliseconds. *)
Record CloudWatchLogsLogEvent : Type := {
  logEvent_id : string;
  logEvent_timestamp : Z;
  logEvent_message : string
}.

(** Modelled from the spec: the type [StructuredFields] is declared
    outside the sources at hand; the specification describes it as a
    mapping from field name to a fixed supplemental value, given as
    text in its examples.  The pairs are listed in [Object.keys] order,
    and an object has no two properties of the same name. *)
Definition StructuredFields : Type := list (string * string).

(** What [createStructuredLog] returns: a plain object, the record; or,
    when the line is the JSON text of an array, string, number or
    boolean [v], the array or wrapper object that [Object.assign] makes
    of [v].  The properties of such an object depend on the engine's
    prototype objects and are not followed: the properties below are
    stated for records. *)
Inductive Publishable : Type :=
| Plain (record : gmap string Value)
| NotAMapping (v : Value).

Section Pipeline.

Context `{Engine}.

Definition isRequestLogEntry (line : string) : bool :=
  JsString.startsWith line "START RequestId: "
  || JsString.startsWith line "END RequestId: "
  || JsString.startsWith line "REPORT RequestId: ".

Definition fieldValue (text fieldNameText : string) (valueLength : option Z)
  : string :=
  JsString.trim
    (JsString.substr text
       (JsString.indexOf text fieldNameText + JsString.size fieldNameText)%Z
       valueLength).

(** Parse an AWS lambda report field, which looks something like
    "Field Name: value unit", into a field name and a value.  Calling
    [split] on a missing value is a [TypeError]. *)
Definition parseReportField (rawField : string) : result (string * Value) :=
  match map JsString.trim (JsString.split ":" rawField) with
  | rawFieldName :: rest =>
      let fieldNameNoSpaces := JsString.removeSpaces rawFieldName in
      let fieldName := JsString.lowerFirst fieldNameNoSpaces in
      match rest with
      | rawFieldValue :: _ =>
          match JsString.split " " rawFieldValue with
          | value :: unit :: _ =>
              if String.eqb unit "ms" || String.eqb unit "MB"
              then Ok (fieldName ++ unit, VNum (JsNumber.parseFloat value))
              else Ok (fieldName, VStr rawFieldValue)
          | _ => Ok (fieldName, VStr rawFieldValue)
          end
      | [] => Throw TypeError
      end
  | [] => Throw TypeError
  end.

(** The [reduce] that collects the report fields into an object. *)
Definition collectFields (fields : list (string * Value)) : gmap string Value :=
  fold_left (fun acc field => let '(fieldName, fieldValue) := field in
                              setProp acc fieldName fieldValue)
            fields ∅.

Definition lambdaRequestLogData (line : string)
  : result (option (gmap string Value)) :=
  if isRequestLogEntry line then
    let eventName := JsString.substr line 0 (Some (JsString.indexOf line " ")) in
    let requestId := fieldValue line "RequestId:" (Some 36%Z) in
    let base : gmap string Value :=
      <["lambdaRequestId" := VStr requestId]> (<["lambdaEvent" := VStr eventName]> ∅) in
    do stats <-
      (if String.eqb eventName "END" then Ok ∅
       else if String.eqb eventName "START" then
         let version := fieldValue line "Version:" None in
         Ok (<["lambdaVersion" := VStr version]> ∅)
       else if String.eqb eventName "REPORT" then
         let rawFields :=
           List.filter (fun s => negb (JsString.isEmpty s))
                       (map JsString.trim (tail (JsString.split "009" line))) in
         do fields <- mapM parseReportField rawFields;
         Ok (collectFields fields)
       else Ok ∅);
    Ok (Some (setProp base "lambdaStats" (VObj stats)))
  else Ok None.

Definition parseMessageJson (line : string) : Value :=
  match JSON_parse (JsString.trim line) with
  | Some v => v
  | None => VObj (<["message" := VStr (JsString.trim line)]> ∅)
  end.

(** Parses a log line of the format
    <date> TAB <requestId> TAB <level> TAB <message>. *)
Definition parseNodeLogFormat (logGroup line : string)
  : option (gmap string Value) :=
  let elements := JsString.split "009" line in
  match elements with
  | dateString :: lambdaRequestId :: level :: messageParts =>
      let isDate := bool_decide (is_Some (Date_parse dateString)) in
      if (4 <=? length elements)%nat && isDate then
        let message := JsString.join (String "009" EmptyString) messageParts in
        let structuredLog := parseMessageJson message in
        Some (<["level" := VStr level]>
                (<["lambdaRequestId" := VStr lambdaRequestId]>
                   (spreadProps structuredLog)))
      else None
  | _ => None
  end.

(** Parse a log line: the runtime lifecycle parser, then the
    tab-delimited one, then the fallback. *)
Definition parseLambdaLogLine (logGroup line : string) : result Value :=
  do lambdaRequestLogDataFields <- lambdaRequestLogData line;
  match lambdaRequestLogDataFields with
  | Some fields => Ok (VObj (setProp fields "message" (VStr line)))
  | None =>
      match parseNodeLogFormat logGroup line with
      | Some nodeLogData => Ok (VObj nodeLogData)
      | None => Ok (parseMessageJson line)
      end
  end.

(** [structuredLog.timestamp]: a [TypeError] on [null], [undefined] on
    the values that are not plain objects. *)
Definition readTimestamp (structuredLog : Value) : result (option Value) :=
  match structuredLog with
  | VNull => Throw TypeError
  | VObj o => Ok (getProp o "timestamp")
  | _ => Ok None
  end.

(** [structuredLog.timestamp || new Date(logEvent.timestamp).toISOString()] *)
Definition timestampOf (structuredLog : Value) (logEvent : CloudWatchLogsLogEvent)
  : result Value :=
  do ts <- readTimestamp structuredLog;
  let ingestionTime :=
    do iso <- JsDate.toISOString (logEvent_timestamp logEvent); Ok (VStr iso) in
  match ts with
  | Some v => if truthy v then Ok v else ingestionTime
  | None => ingestionTime
  end.

(** The template literal [`overwrittenFields.${key}`]. *)
Definition bookkeepingKey (key : string) : string := "overwrittenFields." ++ key.

(** One turn of the [reduce] over the supplemental keys. *)
Definition enrichStep (acc : gmap string Value) (field : string * string)
  : gmap string Value :=
  let '(key, value) := field in
  let acc' :=
    match getProp acc key with
    | Some old => if truthy old then setProp acc (bookkeepingKey key) old else acc
    | None => acc
    end in
  setProp acc' key (VStr value).

Definition enrich (extraFields : StructuredFields) (publishable : gmap string Value)
  : gmap string Value :=
  fold_left enrichStep extraFields publishable.

(** [Object.assign(structuredLog, { '@timestamp': ts, cloudwatchId:
    logEvent.id, cloudwatchLogGroup: logGroup })] on a plain object. *)
Definition assignReserved (logGroup : string) (logEvent : CloudWatchLogsLogEvent)
    (structuredLog : gmap string Value) (ts : Value) : gmap string Value :=
  setProp (setProp (setProp structuredLog "@timestamp" ts)
                   "cloudwatchId" (VStr (logEvent_id logEvent)))
          "cloudwatchLogGroup" (VStr logGroup).

Definition createStructuredLog (logGroup : string)
    (logEvent : CloudWatchLogsLogEvent) (extraFields : StructuredFields)
  : result Publishable :=
  do structuredLog <-
    parseLambdaLogLine logGroup (JsString.trim (logEvent_message logEvent));
  do ts <- timestampOf structuredLog logEvent;
  match structuredLog with
  | VObj o =>
      let publishable := assignReserved logGroup logEvent o ts in
      Ok (Plain (enrich extraFields publishable))
  | v => Ok (NotAMapping v)
  end.

(** The [map] of [shipLogEntries] over the events of a decoded batch: an
    exception on one event leaves the batch without records. *)
Definition structuredLogs (logGroup : string)
    (logEvents : list CloudWatchLogsLogEvent) (extraFields : StructuredFields)
  : result (list Publishable) :=
  mapM (fun logEvent => createStructuredLog logGroup logEvent extraFields)
       logEvents.

End Pipeline.

(* ===================================================================== *)
(** ** Retention and subscription of log groups                           *)
(* ===================================================================== *)

(** A log group as [getCloudWatchLogGroups] lists it, with the two
    fields the source reads.  The source asserts the name to be present
    ([logGroupName!]); the retention is absent for a group that never
    expires. *)
Record LogGroup : Type := {
  logGroupName : string;
  retentionInDays : option Z
}.

(** The calls [setRetention] awaits, in order, in a run where none of
    them fails. *)
Inductive RetentionCall : Type :=
| SetCloudwatchRetention (logGroupName : string) (retentionInDays : Z)
| Sleep (ms : Z).

(** The loop of [setRetention] over the listed groups, for the configured
    retention: a group already at that retention is only reported; every
    other group has its retention set, followed by a pause of 200 ms. *)
Definition setRetention (configured : Z) (cloudwatchLogGroups : list LogGroup)
  : list RetentionCall :=
  flat_map
    (fun logGroup =>
       if bool_decide (retentionInDays logGroup = Some configured) then []
       else [SetCloudwatchRetention (logGroupName logGroup) configured; Sleep 200])
    cloudwatchLogGroups.

Definition eligibleForLogShipping (logNamePrefixes : list string)
    (groupName excludeName : string) : bool :=
  let matchesPrefix :=
    (length logNamePrefixes =? 0)%nat
    || existsb (fun prefix => JsString.startsWith groupName prefix) logNamePrefixes in
  let isExcluded := String.eqb groupName excludeName in
  matchesPrefix && negb isExcluded.

(** [logShippingLambdaArn.split(':')[6]]: [undefined] ([None]) when the
    ARN has fewer than seven parts. *)
Definition logShippingLambdaName (logShippingLambdaArn : string) : option string :=
  JsString.split ":" logShippingLambdaArn !! 6%nat.

(** The template literal [`/aws/lambda/${logShippingLambdaName}`], in
    which [undefined] prints as the word undefined. *)
Definition logShippingLambdaLogGroupName (logShippingLambdaArn : string) : string :=
  "/aws/lambda/" ++ default "undefined" (logShippingLambdaName logShippingLambdaArn).

(** The groups [setLogShipping] passes to [subscribeGroups]. *)
Definition logShippingGroups (logNamePrefixes : list string)
    (logShippingLambdaArn : string) (allGroups : list LogGroup) : list LogGroup :=
  List.filter
    (fun group =>
       eligibleForLogShipping logNamePrefixes (logGroupName group)
         (logShippingLambdaLogGroupName logShippingLambdaArn))
    allGroups.

(** The groups [setLogShipping] passes to [unsubscribeGroups]. *)
Definition removeShippingGroups (logNamePrefixes : list string)
    (logShippingLambdaArn : string) (allGroups : list LogGroup) : list LogGroup :=
  List.filter
    (fun group =>
       negb (eligibleForLogShipping logNamePrefixes (logGroupName group)
               (logShippingLambdaLogGroupName logShippingLambdaArn)))
    allGroups.

(* ===================================================================== *)
(** ** Sample inputs and the readings of the specification               *)
(* ===================================================================== *)

Definition TAB : string := String "009" EmptyString.

Definition QUOTE : string := String "034" EmptyString.

Definition quoted (s : string) : string := QUOTE ++ s ++ QUOTE.

(** The JSON text [{"a":1}]. *)
Definition jsonA1 : string := "{" ++ quoted "a" ++ ":1}".

(** The JSON text [{"env":"prod"}]. *)
Definition jsonEnvProd : string := "{" ++ quoted "env" ++ ":" ++ quoted "prod" ++ "}".

(** The JSON text [{"timestamp":0}]. *)
Definition jsonTimestamp0 : string := "{" ++ quoted "timestamp" ++ ":0}".

(** The JSON text [{"x":"a"}]. *)
Definition jsonXA : string := "{" ++ quoted "x" ++ ":" ++ quoted "a" ++ "}".

(** The JSON text [{"level":"debug","lambdaRequestId":"other","a":1}]. *)
Definition jsonOverride : string :=
  "{" ++ quoted "level" ++ ":" ++ quoted "debug" ++ ","
  ++ quoted "lambdaRequestId" ++ ":" ++ quoted "other" ++ ","
  ++ quoted "a" ++ ":1}".

Definition sampleEvent (message : string) : CloudWatchLogsLogEvent :=
  {| logEvent_id := "event-1"; logEvent_timestamp := 1672531200000;
     logEvent_message := message |}.

(** An event whose message is a REPORT line with a segment [foo] that
    has no colon. *)
Definition malformedReportEvent (id : string) (timestamp : Z)
  : CloudWatchLogsLogEvent :=
  {| logEvent_id := id; logEvent_timestamp := timestamp;
     logEvent_message := "REPORT RequestId: abc" ++ TAB ++ "foo" |}.

(** An event whose message is the JSON text [null]. *)
Definition nullEvent (id : string) (timestamp : Z) : CloudWatchLogsLogEvent :=
  {| logEvent_id := id; logEvent_timestamp := timestamp;
     logEvent_message := "null" |}.

Definition startLine : string :=
  "START RequestId: 123e4567-e89b-12d3-a456-426614174000 Version: $LATEST".

Definition reportLine : string :=
  "REPORT RequestId: abc" ++ TAB ++ "Duration: 123.45 ms" ++ TAB
  ++ "Memory Size: 128 MB".

Definition nodeLine : string :=
  "2023-01-01T00:00:00Z" ++ TAB ++ "req-1" ++ TAB ++ "INFO" ++ TAB ++ jsonA1.

(** The field name of a report segment as the specification words it:
    internal spaces removed, first character lower-cased. *)
Definition normalizedName (rawName : string) : string :=
  JsString.lowerFirst (JsString.removeSpaces rawName).

(** The unit token of a report value: its second space-delimited token. *)
Definition unitToken (value : string) : option string :=
  JsString.split " " value !! 1%nat.

(** The numeric portion of a report value: its first space-delimited token. *)
Definition numericPortion (value : string) : string :=
  default EmptyString (head (JsString.split " " value)).

Definition recognizedUnit (unit : string) : Prop := unit = "ms" \/ unit = "MB".

(** The field a report segment stands for, as the specification words it,
    given the name and the value on either side of its colon. *)
Definition reportFieldOf (rawName rawValue : string) : string * Value :=
  let name := normalizedName (JsString.trim rawName) in
  let value := JsString.trim rawValue in
  match unitToken value with
  | Some unit =>
      if decide (recognizedUnit unit)
      then (name ++ unit, VNum (JsNumber.parseFloat (numericPortion value)))
      else (name, VStr value)
  | None => (name, VStr value)
  end.

(** The value of a report segment read as everything after its first
    colon, trimmed. *)
Definition textAfterColon (segment : string) : string :=
  JsString.trim
    (JsString.substr segment (JsString.indexOf segment ":" + 1)%Z None).

(** The value a record gives [@timestamp] before the supplemental fields
    are applied. *)
Definition timestampSource (o : gmap string Value) (logEvent : CloudWatchLogsLogEvent)
  : Value :=
  match o !! "timestamp" with
  | Some t =>
      if truthy t then t
      else VStr (JsDate.isoString (logEvent_timestamp logEvent))
  | None => VStr (JsDate.isoString (logEvent_timestamp logEvent))
  end.

(** The reading of "enrichment never silently discards a value already
    present under a supplemental key": every supplemental key that the
    record holds ends with the supplemental value, and its bookkeeping
    entry with the value held before. *)
Definition relocatesOverwritten (o : gmap string Value)
    (extraFields : StructuredFields) (r : gmap string Value) : Prop :=
  forall k v old,
    (k, v) ∈ extraFields -> o !! k = Some old ->
    r !! bookkeepingKey k = Some old /\ r !! k = Some (VStr v).

(** A record has a non-empty [@timestamp]. *)
Definition hasTimestamp (r : gmap string Value) : Prop :=
  exists v, r !! "@timestamp" = Some v /\ truthy v = true.

(** No supplemental key is the bookkeeping entry of a supplemental key. *)
Definition independentKeys (extraFields : StructuredFields) : Prop :=
  forall k k', k ∈ extraFields.*1 -> k' ∈ extraFields.*1 -> k' ≠ bookkeepingKey k.

(* ===================================================================== *)
(** ** Definitions for the further properties                             *)
(* ===================================================================== *)

(** The three literals [isRequestLogEntry] tests for. *)
Definition startPrefix : string := "START RequestId: ".
Definition endPrefix : string := "END RequestId: ".
Definition reportPrefix : string := "REPORT RequestId: ".

(** The segments of a REPORT line that [lambdaRequestLogData] hands to
    [parseReportField]. *)
Definition reportSegments (line : string) : list string :=
  List.filter (fun s => negb (JsString.isEmpty s))
              (map JsString.trim (tail (JsString.split "009" line))).

(** The fields every lifecycle record starts from. *)
Definition lifecycleBase (eventName line : string) : gmap string Value :=
  <["lambdaRequestId" := VStr (fieldValue line "RequestId:" (Some 36%Z))]>
    (<["lambdaEvent" := VStr eventName]> ∅).

(** The record of the line [END RequestId: abc]. *)
Definition endRecord : gmap string Value :=
  <["message" := VStr "END RequestId: abc"]>
    (<["lambdaStats" := VObj ∅]>
       (<["lambdaRequestId" := VStr "abc"]> (<["lambdaEvent" := VStr "END"]> ∅))).

(** An event with an ingestion time that is no time value. *)
Definition lateEvent (message : string) : CloudWatchLogsLogEvent :=
  {| logEvent_id := "event-2"; logEvent_timestamp := 8640000000000001;
     logEvent_message := message |}.

(* ===================================================================== *)
(** ** Properties of property reads and writes                            *)
(* ===================================================================== *)

Lemma bookkeepingKey_inj (k k' : string) :
  bookkeepingKey k = bookkeepingKey k' -> k = k'.
Proof. cbv [bookkeepingKey String.append]. intros Heq. by simplify_eq. Qed.

Lemma bookkeepingKey_neq_self (k : string) : bookkeepingKey k ≠ k.
Proof.
  intros Heq. apply (f_equal String.length) in Heq.
  cbv [bookkeepingKey String.append] in Heq. simpl in Heq. lia.
Qed.

Lemma bookkeepingKey_not_proto (k : string) : bookkeepingKey k ≠ "__proto__".
Proof. cbv [bookkeepingKey String.append]. discriminate. Qed.

Lemma setProp_insert (o : gmap string Value) (k : string) (v : Value) :
  k ≠ "__proto__" -> setProp o k v = <[k := v]> o.
Proof.
  intros Hk. unfold setProp. by rewrite (bool_decide_eq_false_2 _ Hk).
Qed.

Lemma lookup_setProp_ne (o : gmap string Value) (k x : string) (v : Value) :
  k ≠ x -> setProp o k v !! x = o !! x.
Proof.
  intros Hne. unfold setProp.
  destruct (_ && _); [done | by rewrite lookup_insert_ne].
Qed.

Lemma lookup_setProp_own (o : gmap string Value) (k : string) (v old : Value) :
  o !! k = Some old -> setProp o k v !! k = Some v.
Proof.
  intros Hown. unfold setProp.
  rewrite (bool_decide_eq_true_2 (is_Some (o !! k))); [| by eexists].
  rewrite andb_false_r. apply lookup_insert_eq.
Qed.

Lemma lookup_setProp_plain (o : gmap string Value) (k : string) (v : Value) :
  k ≠ "__proto__" -> setProp o k v !! k = Some v.
Proof. intros Hk. rewrite setProp_insert by done. apply lookup_insert_eq. Qed.

(** What a write leaves under its own key depends on the target only
    through that key. *)
Lemma lookup_setProp_ext (o o' : gmap string Value) (k : string) (v : Value) :
  o !! k = o' !! k -> setProp o k v !! k = setProp o' k v !! k.
Proof.
  intros Heq. unfold setProp. rewrite Heq.
  destruct (_ && _); [done | by rewrite !lookup_insert_eq].
Qed.

Lemma getProp_ext (o o' : gmap string Value) (k : string) :
  o !! k = o' !! k -> getProp o k = getProp o' k.
Proof. intros Heq. unfold getProp. by rewrite Heq. Qed.

Lemma getProp_own (o : gmap string Value) (k : string) (v : Value) :
  o !! k = Some v -> getProp o k = Some v.
Proof. intros Hown. unfold getProp. by rewrite Hown. Qed.

(** A name that [Object.prototype] does not define is read from the own
    properties alone. *)
Lemma getProp_lookup (o : gmap string Value) (k : string) :
  k ∉ objectPrototypeMembers -> getProp o k = o !! k.
Proof.
  intros Hk. unfold getProp. destruct (o !! k); [done |].
  by rewrite (bool_decide_eq_false_2 _ Hk).
Qed.

(* ===================================================================== *)
(** ** Properties of the enrichment loop                                  *)
(* ===================================================================== *)

(** A turn of the loop for [key] touches [key] and its bookkeeping entry
    only. *)
Lemma enrichStep_frame (o : gmap string Value) (k v x : string) :
  x ≠ k -> x ≠ bookkeepingKey k -> enrichStep o (k, v) !! x = o !! x.
Proof.
  intros Hk Hb. unfold enrichStep.
  rewrite lookup_setProp_ne by done.
  destruct (getProp o k) as [old|]; [| done].
  destruct (truthy old); [| done].
  by rewrite lookup_setProp_ne.
Qed.

Lemma enrichStep_key (o : gmap string Value) (k v : string) :
  enrichStep o (k, v) !! k = setProp o k (VStr v) !! k.
Proof.
  unfold enrichStep. apply lookup_setProp_ext.
  destruct (getProp o k) as [old|]; [| done].
  destruct (truthy old); [| done].
  apply lookup_setProp_ne, bookkeepingKey_neq_self.
Qed.

Lemma enrichStep_bookkeeping (o : gmap string Value) (k v : string) :
  enrichStep o (k, v) !! bookkeepingKey k
  = if toBoolean (getProp o k) then getProp o k else o !! bookkeepingKey k.
Proof.
  unfold enrichStep.
  rewrite lookup_setProp_ne by (intros Heq; by apply (bookkeepingKey_neq_self k)).
  destruct (getProp o k) as [old|] eqn:Hget; simpl; [| done].
  destruct (truthy old); [| done].
  apply lookup_setProp_plain, bookkeepingKey_not_proto.
Qed.

Lemma enrich_cons (o : gmap string Value) (field : string * string)
    (extraFields : StructuredFields) :
  enrich (field :: extraFields) o = enrich extraFields (enrichStep o field).
Proof. reflexivity. Qed.

(** The loop leaves alone every field that is neither a supplemental key
    nor the bookkeeping entry of one. *)
Lemma enrich_frame (extraFields : StructuredFields) (o : gmap string Value)
    (x : string) :
  (forall k, k ∈ extraFields.*1 -> x ≠ k /\ x ≠ bookkeepingKey k) ->
  enrich extraFields o !! x = o !! x.
Proof.
  revert o. induction extraFields as [| [k v] l IH]; intros o Hx; [done |].
  rewrite enrich_cons, IH.
  - destruct (Hx k) as [Hk Hb]; [by left |]. by apply enrichStep_frame.
  - intros k' Hk'. apply Hx. by right.
Qed.

(** A supplemental key ends up as its own write left it, provided it is
    not the bookkeeping entry of another supplemental key. *)
Lemma enrich_key (extraFields : StructuredFields) (o : gmap string Value)
    (k v : string) :
  NoDup extraFields.*1 ->
  (k, v) ∈ extraFields ->
  (forall k', k' ∈ extraFields.*1 -> k ≠ bookkeepingKey k') ->
  enrich extraFields o !! k = setProp o k (VStr v) !! k.
Proof.
  revert o. induction extraFields as [| [k0 v0] l IH]; intros o Hnd Hin Hind.
  - by apply elem_of_nil in Hin.
  - simpl in Hnd. apply NoDup_cons in Hnd as [Hk0 Hnd].
    rewrite enrich_cons. apply elem_of_cons in Hin as [Heq | Hin].
    + simplify_eq. rewrite enrich_frame; [apply enrichStep_key |].
      intros k' Hk'. split; [by intros -> |]. apply Hind. by right.
    + assert (k ∈ l.*1) as Hkl by (apply list_elem_of_fmap; by exists (k, v)).
      assert (k ≠ k0) as Hne by (by intros ->).
      rewrite IH; [| done | done | intros k' Hk'; apply Hind; by right].
      apply lookup_setProp_ext, enrichStep_frame; [done |].
      apply Hind. by left.
Qed.

(** The bookkeeping entry of a supplemental key holds the value the key
    had before the loop when that value is truthy, and is untouched
    otherwise, provided neither the key nor the entry clashes with
    another supplemental key. *)
Lemma enrich_bookkeeping (extraFields : StructuredFields)
    (o : gmap string Value) (k v : string) :
  NoDup extraFields.*1 ->
  (k, v) ∈ extraFields ->
  bookkeepingKey k ∉ extraFields.*1 ->
  (forall k', k' ∈ extraFields.*1 -> k ≠ bookkeepingKey k') ->
  enrich extraFields o !! bookkeepingKey k
  = if toBoolean (getProp o k) then getProp o k else o !! bookkeepingKey k.
Proof.
  revert o. induction extraFields as [| [k0 v0] l IH]; intros o Hnd Hin Hbk Hind.
  - by apply elem_of_nil in Hin.
  - simpl in Hnd, Hbk. apply NoDup_cons in Hnd as [Hk0 Hnd].
    apply not_elem_of_cons in Hbk as [Hbk0 Hbk].
    rewrite enrich_cons. apply elem_of_cons in Hin as [Heq | Hin].
    + simplify_eq. rewrite enrich_frame; [apply enrichStep_bookkeeping |].
      intros k' Hk'. split; [intros Heq; by rewrite Heq in Hbk |].
      intros Heq. apply bookkeepingKey_inj in Heq. by subst.
    + assert (k ∈ l.*1) as Hkl by (apply list_elem_of_fmap; by exists (k, v)).
      assert (k ≠ k0) as Hne by (by intros ->).
      rewrite IH; [| done | done | done | intros k' Hk'; apply Hind; by right].
      assert (enrichStep o (k0, v0) !! k = o !! k) as Hsame.
      { apply enrichStep_frame; [done |]. apply Hind. by left. }
      rewrite (getProp_ext _ _ _ Hsame).
      rewrite enrichStep_frame; [done | done |].
      intros Heq. apply bookkeepingKey_inj in Heq. done.
Qed.

(* ===================================================================== *)
(** ** The operations on sample inputs                                    *)
(* ===================================================================== *)

Example trim_example : JsString.trim ("  a b" ++ TAB ++ " ") = "a b".
Proof. reflexivity. Qed.

Example split_example : JsString.split ":" "a: b:c" = ["a"; " b"; "c"].
Proof. reflexivity. Qed.

Example split_empty_example : JsString.split ":" EmptyString = [EmptyString].
Proof. reflexivity. Qed.

Example substr_example : JsString.substr "hello world" 6 (Some 36%Z) = "world".
Proof. reflexivity. Qed.

Example substr_negative_length : JsString.substr "hello" 0 (Some (-1)%Z) = EmptyString.
Proof. reflexivity. Qed.

Example indexOf_example : JsString.indexOf "END RequestId: x" "RequestId:" = 4%Z.
Proof. reflexivity. Qed.

Example parseFloat_example :
  JsNumber.parseFloat "123.45" = JsNumber.Decimal 12345 (-2)
  /\ JsNumber.parseFloat "128.0" = JsNumber.Decimal 128 0
  /\ JsNumber.parseFloat "abc" = JsNumber.NaN.
Proof. repeat split; vm_compute; reflexivity. Qed.

Example toISOString_example :
  JsDate.toISOString 1672531200000 = Ok "2023-01-01T00:00:00.000Z"
  /\ JsDate.toISOString 8640000000000001 = Throw RangeError.
Proof. split; vm_compute; reflexivity. Qed.

Example json_parse_example :
  Json.parse ("{" ++ quoted "a" ++ ": [1, true, null], " ++ quoted "b" ++ ": "
              ++ quoted "x" ++ "}")
  = Some (VObj (<["a" := VArr [VNum (JsNumber.Decimal 1 0); VBool true; VNull]]>
                  (<["b" := VStr "x"]> ∅)))
  /\ Json.parse "plain text message" = None
  /\ Json.parse "null" = Some VNull.
Proof. repeat split; vm_compute; reflexivity. Qed.

Example iso_date_example :
  IsoDate.parse "2023-01-01T00:00:00Z" = Some 1672531200000%Z.
Proof. vm_compute. reflexivity. Qed.

(** The plain-text line of the specification falls back to a message
    record. *)
Example plain_text_example (logGroup : string) :
  parseLambdaLogLine logGroup "plain text message"
  = Ok (VObj (<["message" := VStr "plain text message"]> ∅)).
Proof. vm_compute. reflexivity. Qed.

(* ===================================================================== *)
(** ** The parsers                                                        *)
(* ===================================================================== *)

(** An element on which [f] throws makes the whole [map] throw. *)
Lemma mapM_throw_at {A B : Type} (f : A -> result B) (before after : list A)
    (x : A) (e : exn) :
  f x = Throw e -> exists e', mapM f (before ++ x :: after) = Throw e'.
Proof.
  intros Hx. induction before as [| y l [e' IH]]; simpl.
  - exists e. by rewrite Hx.
  - destruct (f y); simpl; [| by eexists]. rewrite IH. by eexists.
Qed.

Section Parsers.

Context `{Engine}.

Lemma removeSpaces_no_space (s : string) (c : ascii) :
  In c (list_ascii_of_string (JsString.removeSpaces s)) -> c <> " "%char.
Proof.
  induction s as [| a s IH]; simpl; [tauto |].
  destruct (Ascii.eqb_spec a " "%char) as [-> | Hne]; [exact IH |].
  simpl. intros [<- | Hin]; [exact Hne | by apply IH].
Qed.

Lemma lowerChar_not_space (c : ascii) :
  c <> " "%char -> JsString.lowerChar c <> " "%char.
Proof.
  destruct c as [[] [] [] [] [] [] [] []]; vm_compute; congruence.
Qed.

(** The normalized name of a report field has no space left in it. *)
Lemma normalizedName_no_space (rawName : string) (c : ascii) :
  In c (list_ascii_of_string (normalizedName rawName)) -> c <> " "%char.
Proof.
  unfold normalizedName.
  pose proof (removeSpaces_no_space rawName) as Hno.
  destruct (JsString.removeSpaces rawName) as [| a s]; simpl; [tauto |].
  intros [<- | Hin].
  - apply lowerChar_not_space, Hno. by left.
  - apply Hno. by right.
Qed.

(** A line that the lifecycle parser does not claim goes to the
    tab-delimited parser, and from there to the fallback. *)
Lemma parseLambdaLogLine_not_lifecycle (logGroup line : string) :
  isRequestLogEntry line = false ->
  parseLambdaLogLine logGroup line
  = match parseNodeLogFormat logGroup line with
    | Some nodeLogData => Ok (VObj nodeLogData)
    | None => Ok (parseMessageJson line)
    end.
Proof.
  intros Hno. unfold parseLambdaLogLine, lambdaRequestLogData.
  by rewrite Hno.
Qed.

Lemma parseNodeLogFormat_recognized (logGroup line : string)
    (dateString lambdaRequestId level part : string) (parts : list string) :
  JsString.split "009" line
  = dateString :: lambdaRequestId :: level :: part :: parts ->
  is_Some (Date_parse dateString) ->
  parseNodeLogFormat logGroup line
  = Some (<["level" := VStr level]>
            (<["lambdaRequestId" := VStr lambdaRequestId]>
               (spreadProps (parseMessageJson (JsString.join TAB (part :: parts)))))).
Proof.
  intros Hsplit Hdate. unfold parseNodeLogFormat. rewrite Hsplit.
  by rewrite (bool_decide_eq_true_2 _ Hdate).
Qed.

(** The fields that the tab-delimited parser spreads into its record. *)
Lemma spreadProps_parseMessageJson (message : string) :
  spreadProps (parseMessageJson message)
  = match JSON_parse (JsString.trim message) with
    | Some v => spreadProps v
    | None => <["message" := VStr (JsString.trim message)]> ∅
    end.
Proof. unfold parseMessageJson. by destruct (JSON_parse _). Qed.

End Parsers.

(* ===================================================================== *)
(** ** Claims about the parsers                                           *)
(* ===================================================================== *)

(** C1 (the code departs from the claim).  Building the record of a raw
    line does not always succeed: a REPORT line with a segment that has
    no colon makes [parseReportField] throw a [TypeError], on every
    engine; and the line [null], which [JSON.parse] accepts, makes
    [createStructuredLog] throw a [TypeError] when it reads the
    [timestamp] of the parsed value.  Neither is caught, whatever the
    log group, the event and the supplemental mapping, and a batch that
    contains such a line yields no records at all. *)
Theorem C1_some_lines_abort_the_batch :
  (forall (E : Engine) (logGroup id : string) (timestamp : Z)
          (extraFields : StructuredFields),
      createStructuredLog logGroup (malformedReportEvent id timestamp) extraFields
      = Throw TypeError)
  /\ (forall (logGroup id : string) (timestamp : Z)
             (extraFields : StructuredFields),
         createStructuredLog logGroup (nullEvent id timestamp) extraFields
         = Throw TypeError)
  /\ (forall (logGroup id : string) (timestamp : Z)
             (extraFields : StructuredFields)
             (before after : list CloudWatchLogsLogEvent),
         exists e,
           structuredLogs logGroup (before ++ nullEvent id timestamp :: after)
             extraFields = Throw e).
Proof.
  split; [| split].
  - intros. vm_compute. reflexivity.
  - intros. vm_compute. reflexivity.
  - intros logGroup id timestamp extraFields before after.
    apply (mapM_throw_at _ _ _ _ TypeError). vm_compute. reflexivity.
Qed.

(** C4 (the code departs from the claim).  On the START line of the
    specification the parser yields the event name, the version and the
    raw line as stated, but the request identifier loses its last
    character: the 36 characters taken after [RequestId:] begin with the
    space that follows the colon, so 35 characters of the identifier
    remain. *)
Theorem C4_start_line_request_id_truncated :
  forall (E : Engine) (logGroup : string),
    exists r,
      parseLambdaLogLine logGroup startLine = Ok (VObj r)
      /\ r !! "lambdaEvent" = Some (VStr "START")
      /\ r !! "lambdaRequestId" = Some (VStr "123e4567-e89b-12d3-a456-42661417400")
      /\ r !! "lambdaRequestId" <> Some (VStr "123e4567-e89b-12d3-a456-426614174000")
      /\ r !! "lambdaStats" = Some (VObj (<["lambdaVersion" := VStr "$LATEST"]> ∅))
      /\ r !! "message" = Some (VStr startLine).
Proof.
  intros E logGroup. eexists. split; [vm_compute; reflexivity |].
  repeat split; try (vm_compute; reflexivity).
  vm_compute. discriminate.
Qed.

(** C5, the claim as stated fails: a segment without a colon yields no
    field at all (the missing value makes the parser throw), and a
    segment with a second colon keeps only the text between the first two
    colons rather than the whole value. *)
Lemma C5_counterexample :
  parseReportField "foo" = Throw TypeError
  /\ parseReportField "Time: 12:30" = Ok ("time", VStr "12")
  /\ textAfterColon "Time: 12:30" = "12:30".
Proof. repeat split; vm_compute; reflexivity. Qed.

(** C5, amended.  For every REPORT field segment that contains a colon,
    with [rawName] before the first colon and [rawValue] between the
    first colon and the next (or the end): the field name is the trimmed
    [rawName] with its spaces removed and its first character
    lower-cased; when the second space-delimited token of the trimmed
    [rawValue] is "ms" or "MB" the first token is parsed as a
    floating-point number and the name is suffixed with the unit,
    otherwise the field keeps the trimmed [rawValue] as a string under
    the base name.  On the REPORT line of the specification the nested
    stats hold the numbers 123.45 and 128 under [durationms] and
    [memorySizeMB]. *)
Theorem C5_report_field :
  (forall (segment rawName rawValue : string) (rest : list string),
      JsString.split ":" segment = rawName :: rawValue :: rest ->
      parseReportField segment = Ok (reportFieldOf rawName rawValue))
  /\ (forall (E : Engine) (logGroup : string),
         exists r stats,
           parseLambdaLogLine logGroup reportLine = Ok (VObj r)
           /\ r !! "lambdaStats" = Some (VObj stats)
           /\ stats !! "durationms" = Some (VNum (JsNumber.Decimal 12345 (-2)))
           /\ stats !! "memorySizeMB" = Some (VNum (JsNumber.Decimal 128 0))).
Proof.
  split.
  - intros segment rawName rawValue rest Hsplit.
    unfold parseReportField, reportFieldOf, unitToken, numericPortion.
    rewrite Hsplit. cbn [map]. cbv beta iota zeta.
    destruct (JsString.split " " (JsString.trim rawValue)) as [| value [| u tl]];
      simpl; try reflexivity.
    destruct (decide (recognizedUnit u)) as [[-> | ->] | Hno]; try reflexivity.
    destruct (String.eqb_spec u "ms") as [-> | _];
      [exfalso; apply Hno; by left |].
    destruct (String.eqb_spec u "MB") as [-> | _];
      [exfalso; apply Hno; by right |].
    reflexivity.
  - intros E logGroup. do 2 eexists.
    split; [vm_compute; reflexivity |].
    repeat split; vm_compute; reflexivity.
Qed.

Lemma C5_report_field_witness :
  parseReportField "Billed Duration: 3 ms"
  = Ok ("billedDurationms", VNum (JsNumber.Decimal 3 0)).
Proof.
  rewrite (proj1 C5_report_field "Billed Duration: 3 ms" "Billed Duration" " 3 ms" []
             eq_refl).
  vm_compute. reflexivity.
Defined.

(** C6.  A line that splits on TAB into at least four segments, the
    first of which [Date.parse] accepts, is recognized by the
    tab-delimited parser: the message portion, re-joined with TAB, is
    parsed as JSON when it can be and wrapped as a message record
    otherwise, and the result is merged with [lambdaRequestId] and
    [level] from segments two and three.  This is what
    [parseLambdaLogLine] returns unless the line is a lifecycle line,
    which the first parser claims. *)
Theorem C6_tab_delimited_line :
  forall (E : Engine) (logGroup line : string)
         (dateString lambdaRequestId level part : string) (parts : list string),
    JsString.split "009" line
    = dateString :: lambdaRequestId :: level :: part :: parts ->
    is_Some (Date_parse dateString) ->
    let message := JsString.join TAB (part :: parts) in
    let parsed :=
      match JSON_parse (JsString.trim message) with
      | Some v => spreadProps v
      | None => <["message" := VStr (JsString.trim message)]> ∅
      end in
    let record :=
      <["level" := VStr level]> (<["lambdaRequestId" := VStr lambdaRequestId]> parsed) in
    parseNodeLogFormat logGroup line = Some record
    /\ (isRequestLogEntry line = false ->
        parseLambdaLogLine logGroup line = Ok (VObj record)).
Proof.
  intros E logGroup line dateString lambdaRequestId level part parts Hsplit Hdate
         message parsed record.
  assert (parseNodeLogFormat logGroup line = Some record) as Hnode.
  { rewrite (parseNodeLogFormat_recognized _ _ _ _ _ _ _ Hsplit Hdate).
    subst record parsed message. by rewrite spreadProps_parseMessageJson. }
  split; [exact Hnode |].
  intros Hno. by rewrite parseLambdaLogLine_not_lifecycle, Hnode.
Qed.

(** The tab-delimited line of the specification yields [a = 1],
    [lambdaRequestId = "req-1"] and [level = "INFO"]. *)
Lemma C6_tab_delimited_line_witness :
  parseLambdaLogLine "group" nodeLine
  = Ok (VObj (<["level" := VStr "INFO"]>
                (<["lambdaRequestId" := VStr "req-1"]>
                   (<["a" := VNum (JsNumber.Decimal 1 0)]> ∅)))).
Proof.
  refine (eq_trans
            (proj2 (C6_tab_delimited_line referenceEngine "group" nodeLine
                      "2023-01-01T00:00:00Z" "req-1" "INFO" jsonA1 []
                      eq_refl (ex_intro _ 1672531200000%Z eq_refl))
                   eq_refl)
            _).
  vm_compute. reflexivity.
Defined.

(** C9.  When the message portion of a tab-delimited line parses as a
    JSON object, the record has [lambdaRequestId] and [level] from the
    second and third segments, whatever the object holds under these
    names, and every other field of the object unchanged. *)
Theorem C9_segments_override_json :
  forall (E : Engine) (logGroup line : string)
         (dateString lambdaRequestId level part : string) (parts : list string)
         (o : gmap string Value),
    JsString.split "009" line
    = dateString :: lambdaRequestId :: level :: part :: parts ->
    is_Some (Date_parse dateString) ->
    JSON_parse (JsString.trim (JsString.join TAB (part :: parts))) = Some (VObj o) ->
    exists r,
      parseNodeLogFormat logGroup line = Some r
      /\ (isRequestLogEntry line = false ->
          parseLambdaLogLine logGroup line = Ok (VObj r))
      /\ r !! "lambdaRequestId" = Some (VStr lambdaRequestId)
      /\ r !! "level" = Some (VStr level)
      /\ (forall k, k <> "lambdaRequestId" -> k <> "level" -> r !! k = o !! k).
Proof.
  intros E logGroup line dateString lambdaRequestId level part parts o
         Hsplit Hdate Hjson.
  pose proof (parseNodeLogFormat_recognized logGroup line _ _ _ _ _ Hsplit Hdate)
    as Hnode.
  unfold parseMessageJson in Hnode. rewrite Hjson in Hnode. simpl in Hnode.
  eexists. split; [exact Hnode |].
  split; [intros Hno; by rewrite parseLambdaLogLine_not_lifecycle, Hnode |].
  split; [by rewrite lookup_insert_ne, lookup_insert_eq |].
  split; [by rewrite lookup_insert_eq |].
  intros k Hk1 Hk2. by rewrite !lookup_insert_ne.
Qed.

Lemma C9_segments_override_json_witness :
  exists r,
    parseLambdaLogLine "group"
      ("2023-01-01T00:00:00Z" ++ TAB ++ "req-1" ++ TAB ++ "INFO" ++ TAB
       ++ jsonOverride)
    = Ok (VObj r)
    /\ r !! "lambdaRequestId" = Some (VStr "req-1")
    /\ r !! "level" = Some (VStr "INFO")
    /\ r !! "a" = Some (VNum (JsNumber.Decimal 1 0)).
Proof.
  destruct (C9_segments_override_json referenceEngine "group"
              ("2023-01-01T00:00:00Z" ++ TAB ++ "req-1" ++ TAB ++ "INFO" ++ TAB
               ++ jsonOverride)
              "2023-01-01T00:00:00Z" "req-1" "INFO"
              jsonOverride []
              (<["level" := VStr "debug"]>
                 (<["lambdaRequestId" := VStr "other"]>
                    (<["a" := VNum (JsNumber.Decimal 1 0)]> ∅)))
              eq_refl (ex_intro _ 1672531200000%Z eq_refl) eq_refl)
    as (r & _ & Hline & Hid & Hlevel & Hother).
  exists r. split; [exact (Hline eq_refl) |].
  split; [exact Hid |]. split; [exact Hlevel |].
  rewrite Hother; [reflexivity | discriminate | discriminate].
Defined.

(* ===================================================================== *)
(** ** The record built by [createStructuredLog]                          *)
(* ===================================================================== *)

Lemma isEmpty_append_cons (s : string) (c : ascii) (r : string) :
  JsString.isEmpty (s ++ String c r) = false.
Proof. by destruct s. Qed.

Lemma isoString_not_empty (t : Z) : JsString.isEmpty (JsDate.isoString t) = false.
Proof.
  unfold JsDate.isoString. destruct (JsDate.civilFromDays _) as [[y m] d].
  apply (isEmpty_append_cons (JsDate.yearString y) "-").
Qed.

Lemma timestamp_not_inherited : "timestamp" ∉ objectPrototypeMembers.
Proof. apply (bool_decide_unpack _). by vm_compute. Qed.

Lemma timestampSource_truthy (o : gmap string Value)
    (logEvent : CloudWatchLogsLogEvent) :
  truthy (timestampSource o logEvent) = true.
Proof.
  unfold timestampSource.
  destruct (o !! "timestamp") as [t|]; [destruct (truthy t) eqn:Ht; [done |] |];
    simpl; by rewrite isoString_not_empty.
Qed.

(** The three reserved fields are written over the parser's fields; the
    rest of the parser's fields stay. *)
Lemma lookup_assignReserved (logGroup : string) (logEvent : CloudWatchLogsLogEvent)
    (o : gmap string Value) (ts : Value) (k : string) :
  assignReserved logGroup logEvent o ts !! k
  = if decide (k = "cloudwatchLogGroup") then Some (VStr logGroup)
    else if decide (k = "cloudwatchId") then Some (VStr (logEvent_id logEvent))
    else if decide (k = "@timestamp") then Some ts
    else o !! k.
Proof.
  unfold assignReserved. rewrite !setProp_insert by discriminate.
  repeat case_decide; simplify_eq; by simplify_map_eq.
Qed.

Section Records.

Context `{Engine}.

Lemma timestampOf_inv (o : gmap string Value) (logEvent : CloudWatchLogsLogEvent)
    (ts : Value) :
  timestampOf (VObj o) logEvent = Ok ts -> ts = timestampSource o logEvent.
Proof.
  unfold timestampOf, timestampSource, readTimestamp, JsDate.toISOString. simpl.
  rewrite (getProp_lookup _ _ timestamp_not_inherited).
  destruct (o !! "timestamp") as [t|]; simpl.
  - destruct (truthy t); [by intros [= <-] |].
    destruct (JsDate.isValidTime _); [by intros [= <-] | done].
  - destruct (JsDate.isValidTime _); [by intros [= <-] | done].
Qed.

Lemma timestampOf_valid (o : gmap string Value) (logEvent : CloudWatchLogsLogEvent) :
  JsDate.isValidTime (logEvent_timestamp logEvent) = true ->
  timestampOf (VObj o) logEvent = Ok (timestampSource o logEvent).
Proof.
  intros Hvalid.
  unfold timestampOf, timestampSource, readTimestamp, JsDate.toISOString. simpl.
  rewrite (getProp_lookup _ _ timestamp_not_inherited), Hvalid.
  destruct (o !! "timestamp") as [t|]; simpl; [by destruct (truthy t) | done].
Qed.

(** When the line parses to a mapping, the record is the parser's
    mapping with the reserved fields assigned, then enriched. *)
Lemma createStructuredLog_mapping (logGroup : string)
    (logEvent : CloudWatchLogsLogEvent) (extraFields : StructuredFields)
    (o : gmap string Value) :
  parseLambdaLogLine logGroup (JsString.trim (logEvent_message logEvent))
  = Ok (VObj o) ->
  createStructuredLog logGroup logEvent extraFields
  = do ts <- timestampOf (VObj o) logEvent;
    Ok (Plain (enrich extraFields (assignReserved logGroup logEvent o ts))).
Proof. intros Hparse. unfold createStructuredLog. by rewrite Hparse. Qed.

Lemma createStructuredLog_inv (logGroup : string)
    (logEvent : CloudWatchLogsLogEvent) (extraFields : StructuredFields)
    (o : gmap string Value) (out : Publishable) :
  parseLambdaLogLine logGroup (JsString.trim (logEvent_message logEvent))
  = Ok (VObj o) ->
  createStructuredLog logGroup logEvent extraFields = Ok out ->
  out = Plain (enrich extraFields
                 (assignReserved logGroup logEvent o (timestampSource o logEvent))).
Proof.
  intros Hparse. rewrite (createStructuredLog_mapping _ _ _ _ Hparse).
  destruct (timestampOf (VObj o) logEvent) as [ts|e] eqn:Hts; simpl; [| done].
  apply timestampOf_inv in Hts as ->. by intros [= <-].
Qed.

Lemma createStructuredLog_valid (logGroup : string)
    (logEvent : CloudWatchLogsLogEvent) (extraFields : StructuredFields)
    (o : gmap string Value) :
  parseLambdaLogLine logGroup (JsString.trim (logEvent_message logEvent))
  = Ok (VObj o) ->
  JsDate.isValidTime (logEvent_timestamp logEvent) = true ->
  createStructuredLog logGroup logEvent extraFields
  = Ok (Plain (enrich extraFields
                 (assignReserved logGroup logEvent o (timestampSource o logEvent)))).
Proof.
  intros Hparse Hvalid. rewrite (createStructuredLog_mapping _ _ _ _ Hparse).
  by rewrite (timestampOf_valid _ _ Hvalid).
Qed.

(** The supplemental mapping enters only through the enrichment loop:
    the record is the enrichment of the record built without it. *)
Lemma createStructuredLog_enrich (logGroup : string)
    (logEvent : CloudWatchLogsLogEvent) (extraFields : StructuredFields)
    (o : gmap string Value) :
  parseLambdaLogLine logGroup (JsString.trim (logEvent_message logEvent))
  = Ok (VObj o) ->
  createStructuredLog logGroup logEvent extraFields
  = match createStructuredLog logGroup logEvent [] with
    | Ok (Plain p) => Ok (Plain (enrich extraFields p))
    | other => other
    end.
Proof.
  intros Hparse. rewrite !(createStructuredLog_mapping _ _ _ _ Hparse).
  by destruct (timestampOf (VObj o) logEvent).
Qed.

(** The lifecycle parser keeps the raw line under [message]. *)
Lemma lifecycle_message (logGroup line : string) (o : gmap string Value) :
  isRequestLogEntry line = true ->
  parseLambdaLogLine logGroup line = Ok (VObj o) ->
  o !! "message" = Some (VStr line).
Proof.
  intros Hyes. unfold parseLambdaLogLine.
  destruct (lambdaRequestLogData line) as [[fields|]|e] eqn:Hdata; simpl.
  - intros [= <-]. by apply lookup_setProp_plain.
  - unfold lambdaRequestLogData in Hdata. rewrite Hyes in Hdata.
    by destruct (if String.eqb _ "END" then _ else _).
  - done.
Qed.

(** The fallback parser wraps a line that is not JSON as a message
    record. *)
Lemma fallback_message (logGroup line : string) :
  isRequestLogEntry line = false ->
  parseNodeLogFormat logGroup line = None ->
  JSON_parse (JsString.trim line) = None ->
  parseLambdaLogLine logGroup line
  = Ok (VObj (<["message" := VStr (JsString.trim line)]> ∅)).
Proof.
  intros Hno Hnode Hjson.
  rewrite parseLambdaLogLine_not_lifecycle, Hnode by done.
  unfold parseMessageJson. by rewrite Hjson.
Qed.

End Records.

(* ===================================================================== *)
(** ** Order of the supplemental keys                                     *)
(* ===================================================================== *)

Lemma independentKeys_perm (extraFields extraFields' : StructuredFields) :
  extraFields ≡ₚ extraFields' ->
  independentKeys extraFields -> independentKeys extraFields'.
Proof.
  intros Hperm Hind k k' Hk Hk'.
  apply Hind; by rewrite (fmap_Permutation fst _ _ Hperm).
Qed.

(** The field the loop leaves under [x], whatever the order of the
    supplemental keys. *)
Lemma enrich_lookup_independent (extraFields : StructuredFields)
    (o : gmap string Value) (x : string) :
  NoDup extraFields.*1 ->
  independentKeys extraFields ->
  (exists v, (x, v) ∈ extraFields
             /\ enrich extraFields o !! x = setProp o x (VStr v) !! x)
  \/ ((x ∉ extraFields.*1)
      /\ exists k, k ∈ extraFields.*1 /\ x = bookkeepingKey k
         /\ enrich extraFields o !! x
            = if toBoolean (getProp o k) then getProp o k else o !! x)
  \/ ((x ∉ extraFields.*1)
      /\ (forall k, k ∈ extraFields.*1 -> x ≠ bookkeepingKey k)
      /\ enrich extraFields o !! x = o !! x).
Proof.
  intros Hnd Hind.
  destruct (decide (x ∈ extraFields.*1)) as [Hin | Hnin].
  - left. apply list_elem_of_fmap in Hin as [[k v] [-> Hkv]]. exists v.
    split; [done |]. apply enrich_key; [done | done |].
    intros k' Hk'. apply Hind; [done |].
    apply list_elem_of_fmap. by exists (k, v).
  - right. destruct (decide (x ∈ bookkeepingKey <$> extraFields.*1)) as [Hb | Hnb].
    + left. split; [done |].
      apply list_elem_of_fmap in Hb as [k [-> Hk]]. exists k.
      split; [done |]. split; [done |].
      pose proof Hk as Hk0.
      apply list_elem_of_fmap in Hk as [[k1 v] [Heq Hkv]]. simpl in Heq. subst k1.
      apply (enrich_bookkeeping _ _ _ v); [done | done | done |].
      intros k' Hk'. by apply Hind.
    + right. split; [done |].
      assert (forall k, k ∈ extraFields.*1 -> x ≠ bookkeepingKey k) as Hfree.
      { intros k Hk ->. apply Hnb, list_elem_of_fmap. by exists k. }
      split; [done |]. apply enrich_frame. intros k Hk. split.
      * by intros ->.
      * by apply Hfree.
Qed.

(** With independent keys the enrichment does not depend on the order in
    which the supplemental keys are applied. *)
Lemma enrich_permutation (extraFields extraFields' : StructuredFields)
    (o : gmap string Value) :
  extraFields ≡ₚ extraFields' ->
  NoDup extraFields.*1 ->
  independentKeys extraFields ->
  enrich extraFields o = enrich extraFields' o.
Proof.
  intros Hperm Hnd Hind. apply map_eq. intros x.
  assert (NoDup extraFields'.*1) as Hnd'
    by (by rewrite <- (fmap_Permutation fst _ _ Hperm)).
  pose proof (independentKeys_perm _ _ Hperm Hind) as Hind'.
  destruct (enrich_lookup_independent extraFields o x Hnd Hind)
    as [(v & Hin & ->) | [(Hnin & k & Hk & -> & ->) | (Hnin & Hfree & ->)]].
  - rewrite Hperm in Hin. symmetry. apply enrich_key; [done | done |].
    intros k' Hk'. apply Hind'; [done |].
    apply list_elem_of_fmap. by exists (x, v).
  - rewrite (fmap_Permutation fst _ _ Hperm) in Hnin, Hk.
    apply list_elem_of_fmap in Hk as [[k1 v] [Heq Hkv]]. simpl in Heq. subst k1.
    symmetry. apply (enrich_bookkeeping _ _ _ v); [done | done | done |].
    intros k' Hk'. apply Hind'; [done |].
    apply list_elem_of_fmap. by exists (k, v).
  - symmetry. apply enrich_frame. intros k Hk.
    rewrite <- (fmap_Permutation fst _ _ Hperm) in Hk. split.
    + by intros ->.
    + by apply Hfree.
Qed.

(* ===================================================================== *)
(** ** Claims about the enrichment                                        *)
(* ===================================================================== *)

(** C2, the claim as stated fails.  A falsy value held under a
    supplemental key (here the number 0) is overwritten without being
    relocated; a bookkeeping entry is itself overwritten when the
    supplemental mapping has a key of its name; and a value the record
    holds under a bookkeeping name is lost when the key of that name is
    enriched first. *)
Lemma C2_counterexample :
  (let o : gmap string Value := <["count" := VNum (JsNumber.Decimal 0 0)]> ∅ in
   let extra := [("count", "5")] in
   enrich extra o = <["count" := VStr "5"]> ∅
   /\ ~ relocatesOverwritten o extra (enrich extra o))
  /\ (let o : gmap string Value := <["x" := VStr "a"]> ∅ in
      let extra := [("x", "1"); ("overwrittenFields.x", "2")] in
      enrich extra o !! "overwrittenFields.x" = Some (VStr "2")
      /\ ~ relocatesOverwritten o extra (enrich extra o))
  /\ (let o : gmap string Value :=
        <["x" := VStr "a"]> (<["overwrittenFields.x" := VStr "b"]> ∅) in
      let extra := [("x", "1"); ("overwrittenFields.x", "2")] in
      enrich extra o
      = <["x" := VStr "1"]>
          (<["overwrittenFields.x" := VStr "2"]>
             (<["overwrittenFields.overwrittenFields.x" := VStr "a"]> ∅))
      /\ ~ relocatesOverwritten o extra (enrich extra o)).
Proof.
  split; [| split]; cbv zeta.
  - split; [by vm_compute |].
    intros Hrel.
    destruct (Hrel "count" "5" (VNum (JsNumber.Decimal 0 0))) as [Hbk _];
      [by left | by vm_compute |].
    vm_compute in Hbk. discriminate.
  - split; [by vm_compute |].
    intros Hrel.
    destruct (Hrel "x" "1" (VStr "a")) as [Hbk _]; [by left | by vm_compute |].
    vm_compute in Hbk. discriminate.
  - split; [by vm_compute |].
    intros Hrel.
    destruct (Hrel "overwrittenFields.x" "2" (VStr "b")) as [Hbk _];
      [right; by left | by vm_compute |].
    vm_compute in Hbk. discriminate.
Qed.

(** C2, amended.  For every record and every supplemental mapping, each
    supplemental key [k] under which the record holds a truthy value
    (not the empty string, 0, NaN, false or null) ends with the supplemental value,
    and [overwrittenFields.k] with the value held before, provided no
    supplemental key is named [overwrittenFields.k] and [k] is not
    itself the bookkeeping name of a supplemental key. *)
Theorem C2_truthy_value_relocated :
  forall (o : gmap string Value) (extraFields : StructuredFields)
         (k v : string) (old : Value),
    NoDup extraFields.*1 ->
    (k, v) ∈ extraFields ->
    o !! k = Some old ->
    truthy old = true ->
    bookkeepingKey k ∉ extraFields.*1 ->
    (forall k', k' ∈ extraFields.*1 -> k ≠ bookkeepingKey k') ->
    enrich extraFields o !! bookkeepingKey k = Some old
    /\ enrich extraFields o !! k = Some (VStr v).
Proof.
  intros o extraFields k v old Hnd Hin Hown Htruthy Hbk Hind. split.
  - rewrite (enrich_bookkeeping _ _ _ v) by done.
    rewrite (getProp_own _ _ _ Hown). simpl. by rewrite Htruthy.
  - rewrite (enrich_key _ _ _ v) by done.
    by apply (lookup_setProp_own _ _ _ old).
Qed.

(** A record with [env = "prod"] enriched with [env = "staging"]. *)
Lemma C2_truthy_value_relocated_witness :
  enrich [("env", "staging")] (<["env" := VStr "prod"]> ∅)
    !! bookkeepingKey "env" = Some (VStr "prod")
  /\ enrich [("env", "staging")] (<["env" := VStr "prod"]> ∅)
       !! "env" = Some (VStr "staging").
Proof.
  apply (C2_truthy_value_relocated (<["env" := VStr "prod"]> ∅)
           [("env", "staging")] "env" "staging" (VStr "prod")).
  - apply (bool_decide_unpack _). by vm_compute.
  - by left.
  - by vm_compute.
  - reflexivity.
  - apply (bool_decide_unpack _). by vm_compute.
  - intros k' Hk'. apply list_elem_of_singleton in Hk'. subst k'. discriminate.
Defined.

(** The same through [createStructuredLog], on the line [{"env":"prod"}]. *)
Example enrichment_example :
  exists r,
    createStructuredLog "group" (sampleEvent jsonEnvProd)
      [("env", "staging")] = Ok (Plain r)
    /\ r !! "env" = Some (VStr "staging")
    /\ r !! "overwrittenFields.env" = Some (VStr "prod").
Proof. eexists. split; [by vm_compute |]. split; by vm_compute. Qed.

Section Enrichment.

Context `{Engine}.

(** C3, amended.  Whenever the line parses to a mapping and the
    supplemental mapping has no [@timestamp] key, every record that
    [createStructuredLog] returns has a non-empty [@timestamp]: the
    parser's [timestamp] when that is truthy, the ingestion time as an
    ISO-8601 string otherwise (also when the parser's [timestamp] is the
    empty string, 0, NaN, false or null); and a record is returned whenever the
    ingestion time is a valid time value. *)
Theorem C3_timestamp_present :
  forall (logGroup : string) (logEvent : CloudWatchLogsLogEvent)
         (extraFields : StructuredFields) (o : gmap string Value),
    parseLambdaLogLine logGroup (JsString.trim (logEvent_message logEvent))
    = Ok (VObj o) ->
    "@timestamp" ∉ extraFields.*1 ->
    (JsDate.isValidTime (logEvent_timestamp logEvent) = true ->
     exists r, createStructuredLog logGroup logEvent extraFields = Ok (Plain r))
    /\ (forall out,
           createStructuredLog logGroup logEvent extraFields = Ok out ->
           exists r,
             out = Plain r
             /\ hasTimestamp r
             /\ r !! "@timestamp"
                = Some (match o !! "timestamp" with
                        | Some t =>
                            if truthy t then t
                            else VStr (JsDate.isoString (logEvent_timestamp logEvent))
                        | None => VStr (JsDate.isoString (logEvent_timestamp logEvent))
                        end)).
Proof.
  intros logGroup logEvent extraFields o Hparse Hnot. split.
  - intros Hvalid. eexists. by apply createStructuredLog_valid.
  - intros out Hout.
    apply (createStructuredLog_inv _ _ _ _ _ Hparse) in Hout as ->.
    eexists. split; [done |].
    assert (enrich extraFields
              (assignReserved logGroup logEvent o (timestampSource o logEvent))
              !! "@timestamp" = Some (timestampSource o logEvent)) as Hts.
    { rewrite enrich_frame.
      - by rewrite lookup_assignReserved.
      - intros k Hk. split; [by intros <- |].
        cbv [bookkeepingKey String.append]. discriminate. }
    split; [| exact Hts].
    exists (timestampSource o logEvent). split; [exact Hts |].
    apply timestampSource_truthy.
Qed.

(** C7, amended.  Whenever the line parses to a mapping, every record
    that [createStructuredLog] returns carries [@timestamp] (the
    parser's truthy [timestamp], else the ISO-8601 ingestion time),
    [cloudwatchId] (the event id) and [cloudwatchLogGroup] (the source
    name), each unless the supplemental mapping has a key of that name,
    and has under [message] what the parser left there unless the
    supplemental mapping has a [message] key: the raw line for a
    lifecycle line, the trimmed line when it is no tab-delimited line
    and not JSON.  A record is returned whenever the ingestion time is a
    valid time value. *)
Theorem C7_reserved_fields :
  forall (logGroup : string) (logEvent : CloudWatchLogsLogEvent)
         (extraFields : StructuredFields) (o : gmap string Value),
    let line := JsString.trim (logEvent_message logEvent) in
    parseLambdaLogLine logGroup line = Ok (VObj o) ->
    (JsDate.isValidTime (logEvent_timestamp logEvent) = true ->
     exists r, createStructuredLog logGroup logEvent extraFields = Ok (Plain r))
    /\ (forall out,
           createStructuredLog logGroup logEvent extraFields = Ok out ->
           exists r,
             out = Plain r
             /\ ("@timestamp" ∉ extraFields.*1 ->
                 r !! "@timestamp" = Some (timestampSource o logEvent))
             /\ ("cloudwatchId" ∉ extraFields.*1 ->
                 r !! "cloudwatchId" = Some (VStr (logEvent_id logEvent)))
             /\ ("cloudwatchLogGroup" ∉ extraFields.*1 ->
                 r !! "cloudwatchLogGroup" = Some (VStr logGroup))
             /\ ("message" ∉ extraFields.*1 -> r !! "message" = o !! "message"))
    /\ (isRequestLogEntry line = true -> o !! "message" = Some (VStr line))
    /\ (isRequestLogEntry line = false ->
        parseNodeLogFormat logGroup line = None ->
        JSON_parse (JsString.trim line) = None ->
        o !! "message" = Some (VStr (JsString.trim line))).
Proof.
  intros logGroup logEvent extraFields o line Hparse.
  split; [| split; [| split]].
  - intros Hvalid. eexists. by apply createStructuredLog_valid.
  - intros out Hout.
    apply (createStructuredLog_inv _ _ _ _ _ Hparse) in Hout as ->.
    eexists. split; [done |].
    repeat split; intros Hnot;
      (rewrite enrich_frame;
       [by rewrite lookup_assignReserved
       | intros k Hk; split;
         [by intros <- | cbv [bookkeepingKey String.append]; discriminate]]).
  - intros Hyes. by apply (lifecycle_message logGroup).
  - intros Hno Hnode Hjson.
    rewrite (fallback_message logGroup line Hno Hnode Hjson) in Hparse.
    injection Hparse as <-. apply lookup_insert_eq.
Qed.

(** C8, amended.  For a line that parses to a mapping and a
    supplemental mapping none of whose keys is the bookkeeping name
    [overwrittenFields.k] of a supplemental key [k], the outcome of
    [createStructuredLog] is the same whatever the order in which the
    supplemental keys are applied: the same record as a mapping,
    bookkeeping entries included; and the bookkeeping entry of every
    supplemental key whose value before the enrichment is truthy holds
    that value. *)
Theorem C8_order_of_supplemental_keys :
  forall (logGroup : string) (logEvent : CloudWatchLogsLogEvent)
         (extraFields extraFields' : StructuredFields) (o : gmap string Value),
    parseLambdaLogLine logGroup (JsString.trim (logEvent_message logEvent))
    = Ok (VObj o) ->
    extraFields ≡ₚ extraFields' ->
    NoDup extraFields.*1 ->
    independentKeys extraFields ->
    createStructuredLog logGroup logEvent extraFields
    = createStructuredLog logGroup logEvent extraFields'
    /\ (forall p r k v old,
           createStructuredLog logGroup logEvent [] = Ok (Plain p) ->
           createStructuredLog logGroup logEvent extraFields = Ok (Plain r) ->
           (k, v) ∈ extraFields ->
           p !! k = Some old ->
           truthy old = true ->
           r !! bookkeepingKey k = Some old).
Proof.
  intros logGroup logEvent extraFields extraFields' o Hparse Hperm Hnd Hind.
  split.
  - rewrite (createStructuredLog_enrich _ _ extraFields _ Hparse),
      (createStructuredLog_enrich _ _ extraFields' _ Hparse).
    destruct (createStructuredLog logGroup logEvent []) as [[p|v]|e]; [| done | done].
    by rewrite (enrich_permutation _ _ p Hperm Hnd Hind).
  - intros p r k v old Hbase Hout Hin Hown Htruthy.
    rewrite (createStructuredLog_enrich _ _ _ _ Hparse), Hbase in Hout.
    injection Hout as <-.
    assert (k ∈ extraFields.*1) as Hk
      by (apply list_elem_of_fmap; by exists (k, v)).
    rewrite (enrich_bookkeeping _ _ _ v); [| done | done | |].
    + rewrite (getProp_own _ _ _ Hown). simpl. by rewrite Htruthy.
    + intros Hbk. by apply (Hind k (bookkeepingKey k)).
    + intros k' Hk'. by apply Hind.
Qed.

(** C10.  With an empty supplemental mapping and a line that parses to a
    mapping, every record that [createStructuredLog] returns has the
    parser's fields unchanged apart from [@timestamp], [cloudwatchId]
    and [cloudwatchLogGroup]; its keys are the parser's keys and these
    three, so no [overwrittenFields] entry is added; and a record is
    returned whenever the ingestion time is a valid time value. *)
Theorem C10_empty_supplemental_frame :
  forall (logGroup : string) (logEvent : CloudWatchLogsLogEvent)
         (o : gmap string Value),
    parseLambdaLogLine logGroup (JsString.trim (logEvent_message logEvent))
    = Ok (VObj o) ->
    (JsDate.isValidTime (logEvent_timestamp logEvent) = true ->
     exists r, createStructuredLog logGroup logEvent [] = Ok (Plain r))
    /\ (forall out,
           createStructuredLog logGroup logEvent [] = Ok out ->
           exists r,
             out = Plain r
             /\ (forall k,
                    k ≠ "@timestamp" -> k ≠ "cloudwatchId" ->
                    k ≠ "cloudwatchLogGroup" -> r !! k = o !! k)
             /\ (forall k, r !! bookkeepingKey k = o !! bookkeepingKey k)
             /\ dom r
                = {[ "@timestamp"; "cloudwatchId"; "cloudwatchLogGroup" ]} ∪ dom o).
Proof.
  intros logGroup logEvent o Hparse. split.
  - intros Hvalid. eexists. by apply createStructuredLog_valid.
  - intros out Hout.
    apply (createStructuredLog_inv _ _ _ _ _ Hparse) in Hout as ->.
    eexists. split; [done |]. simpl. split; [| split].
    + intros k H1 H2 H3. rewrite lookup_assignReserved.
      by repeat case_decide.
    + intros k. rewrite lookup_assignReserved.
      repeat case_decide; try done;
        match goal with
        | Heq : bookkeepingKey _ = _ |- _ =>
            cbv [bookkeepingKey String.append] in Heq; discriminate
        end.
    + unfold assignReserved. rewrite !setProp_insert by discriminate.
      rewrite !dom_insert_L. set_solver.
Qed.

End Enrichment.

(* ===================================================================== *)
(** ** The enrichment claims on sample events                             *)
(* ===================================================================== *)

(** C3, the claim as stated fails.  A supplemental [@timestamp] with an
    empty value leaves the record with an empty [@timestamp]; and a
    parser [timestamp] that is falsy (here the number 0) is not promoted:
    the ingestion time is used instead. *)
Lemma C3_counterexample :
  (exists r,
      createStructuredLog "group" (sampleEvent "plain text message")
        [("@timestamp", EmptyString)] = Ok (Plain r)
      /\ r !! "@timestamp" = Some (VStr EmptyString)
      /\ ~ hasTimestamp r)
  /\ (exists r,
         createStructuredLog "group" (sampleEvent jsonTimestamp0) []
         = Ok (Plain r)
         /\ r !! "timestamp" = Some (VNum (JsNumber.Decimal 0 0))
         /\ r !! "@timestamp" = Some (VStr "2023-01-01T00:00:00.000Z")).
Proof.
  split.
  - eexists. split; [by vm_compute |]. split; [by vm_compute |].
    intros (v & Hv & Htruthy). vm_compute in Hv.
    injection Hv as <-. discriminate.
  - eexists. split; [by vm_compute |]. split; by vm_compute.
Qed.

Lemma C3_timestamp_present_witness :
  exists r,
    createStructuredLog "group" (sampleEvent "plain text message")
      [("env", "staging")] = Ok (Plain r)
    /\ hasTimestamp r
    /\ r !! "@timestamp" = Some (VStr "2023-01-01T00:00:00.000Z").
Proof.
  destruct (@C3_timestamp_present referenceEngine "group"
              (sampleEvent "plain text message") [("env", "staging")]
              (<["message" := VStr "plain text message"]> ∅)
              eq_refl
              ltac:(apply (bool_decide_unpack _); vm_compute; exact I))
    as [Hreturns Hrecord].
  destruct (Hreturns eq_refl) as [r Hr].
  destruct (Hrecord _ Hr) as (r' & Heq & Hhas & Hts).
  injection Heq as <-. exists r. split; [exact Hr |]. split; [exact Hhas |].
  exact Hts.
Defined.

(** C7, the claim as stated fails.  A line that is JSON without a
    [message] member yields a record without [message]; and a
    supplemental [cloudwatchId] replaces the event id. *)
Lemma C7_counterexample :
  (exists r,
      createStructuredLog "group" (sampleEvent jsonA1) [] = Ok (Plain r)
      /\ r !! "message" = None)
  /\ (exists r,
         createStructuredLog "group" (sampleEvent "plain text message")
           [("cloudwatchId", "other")] = Ok (Plain r)
         /\ r !! "cloudwatchId" = Some (VStr "other")
         /\ r !! "cloudwatchId"
            <> Some (VStr (logEvent_id (sampleEvent "plain text message")))).
Proof.
  split.
  - eexists. split; by vm_compute.
  - eexists. split; [by vm_compute |]. split; [by vm_compute |].
    vm_compute. discriminate.
Qed.

Lemma C7_reserved_fields_witness :
  exists r,
    createStructuredLog "group" (sampleEvent "plain text message")
      [("env", "staging")] = Ok (Plain r)
    /\ r !! "@timestamp" = Some (VStr "2023-01-01T00:00:00.000Z")
    /\ r !! "cloudwatchId" = Some (VStr "event-1")
    /\ r !! "cloudwatchLogGroup" = Some (VStr "group")
    /\ r !! "message" = Some (VStr "plain text message").
Proof.
  destruct (@C7_reserved_fields referenceEngine "group"
              (sampleEvent "plain text message") [("env", "staging")]
              (<["message" := VStr "plain text message"]> ∅)
              eq_refl)
    as (Hreturns & Hrecord & _ & _).
  destruct (Hreturns eq_refl) as [r Hr].
  destruct (Hrecord _ Hr) as (r' & Heq & Hts & Hid & Hgroup & Hmessage).
  injection Heq as <-. exists r. split; [exact Hr |].
  split; [apply Hts; apply (bool_decide_unpack _); vm_compute; exact I |].
  split; [apply Hid; apply (bool_decide_unpack _); vm_compute; exact I |].
  split; [apply Hgroup; apply (bool_decide_unpack _); vm_compute; exact I |].
  rewrite Hmessage; [reflexivity |].
  apply (bool_decide_unpack _); vm_compute; exact I.
Defined.

(** C8, the claim as stated fails.  With the supplemental keys [x] and
    [overwrittenFields.x] the two orders give different records, and in
    one of them the entry [overwrittenFields.x] holds the supplemental
    value "2" rather than "a", the value of [x] before the enrichment. *)
Lemma C8_counterexample :
  exists p r1 r2,
    createStructuredLog "group" (sampleEvent jsonXA) [] = Ok (Plain p)
    /\ createStructuredLog "group" (sampleEvent jsonXA)
         [("x", "1"); ("overwrittenFields.x", "2")] = Ok (Plain r1)
    /\ createStructuredLog "group" (sampleEvent jsonXA)
         [("overwrittenFields.x", "2"); ("x", "1")] = Ok (Plain r2)
    /\ p !! "x" = Some (VStr "a")
    /\ r1 !! "overwrittenFields.x" = Some (VStr "2")
    /\ r2 !! "overwrittenFields.x" = Some (VStr "a")
    /\ r1 !! "overwrittenFields.overwrittenFields.x" = Some (VStr "a")
    /\ r2 !! "overwrittenFields.overwrittenFields.x" = None.
Proof.
  do 3 eexists. split; [by vm_compute |]. split; [by vm_compute |].
  split; [by vm_compute |]. repeat split; by vm_compute.
Qed.

Lemma C8_order_of_supplemental_keys_witness :
  createStructuredLog "group" (sampleEvent jsonEnvProd)
    [("env", "staging"); ("team", "logs")]
  = createStructuredLog "group" (sampleEvent jsonEnvProd)
      [("team", "logs"); ("env", "staging")].
Proof.
  apply (@C8_order_of_supplemental_keys referenceEngine "group"
           (sampleEvent jsonEnvProd)
           [("env", "staging"); ("team", "logs")]
           [("team", "logs"); ("env", "staging")]
           (<["env" := VStr "prod"]> ∅)).
  - vm_compute. reflexivity.
  - apply perm_swap.
  - apply (bool_decide_unpack _). vm_compute. exact I.
  - intros k k' Hk Hk'. simpl in Hk, Hk'.
    apply elem_of_cons in Hk as [-> | Hk];
      [| apply list_elem_of_singleton in Hk as ->];
      (apply elem_of_cons in Hk' as [-> | Hk'];
       [| apply list_elem_of_singleton in Hk' as ->]);
      discriminate.
Defined.

Lemma C10_empty_supplemental_frame_witness :
  exists r,
    createStructuredLog "group" (sampleEvent jsonA1) [] = Ok (Plain r)
    /\ r !! "a" = Some (VNum (JsNumber.Decimal 1 0))
    /\ dom r = {[ "@timestamp"; "cloudwatchId"; "cloudwatchLogGroup"; "a" ]}.
Proof.
  destruct (@C10_empty_supplemental_frame referenceEngine "group"
              (sampleEvent jsonA1)
              (<["a" := VNum (JsNumber.Decimal 1 0)]> ∅)
              eq_refl)
    as [Hreturns Hrecord].
  destruct (Hreturns eq_refl) as [r Hr].
  destruct (Hrecord _ Hr) as (r' & Heq & Hframe & _ & Hdom).
  injection Heq as <-. exists r. split; [exact Hr |].
  split; [rewrite Hframe; [reflexivity | discriminate | discriminate | discriminate] |].
  rewrite Hdom. rewrite dom_insert_L, dom_empty_L. set_solver.
Defined.

(* ===================================================================== *)
(** ** The outcomes of the parser chain                                   *)
(* ===================================================================== *)



Section Outcomes.

Context `{Engine}.


(** A line that is not a lifecycle line always parses. *)
Lemma parseLambdaLogLine_total_off_lifecycle (logGroup line : string) :
  isRequestLogEntry line = false ->
  exists v, parseLambdaLogLine logGroup line = Ok v.
Proof.
  intros Hno. rewrite parseLambdaLogLine_not_lifecycle by done.
  destruct (parseNodeLogFormat logGroup line); by eexists.
Qed.

End Outcomes.

(** A supplemental key that is neither [__proto__] nor the bookkeeping
    name of another supplemental key ends with its supplemental value. *)
Lemma supplemental_value_wins (extraFields : StructuredFields)
    (o : gmap string Value) (k v : string) :
  NoDup extraFields.*1 ->
  (k, v) ∈ extraFields ->
  k ≠ "__proto__" ->
  (forall k', k' ∈ extraFields.*1 -> k ≠ bookkeepingKey k') ->
  enrich extraFields o !! k = Some (VStr v).
Proof.
  intros Hnd Hin Hk Hind. rewrite (enrich_key _ _ _ v) by done.
  by apply lookup_setProp_plain.
Qed.

(* ===================================================================== *)
(** ** Further properties of the string operations                        *)
(* ===================================================================== *)

Lemma substring_zero_length (n : nat) (s : string) :
  String.substring n 0 s = EmptyString.
Proof. revert s. induction n as [| n IH]; intros [| c s]; simpl; auto. Qed.

Lemma length_substring_le (n m : nat) (s : string) :
  (String.length (String.substring n m s) <= m)%nat.
Proof.
  revert m s. induction n as [| n IH]; intros m s.
  - revert s. induction m as [| m IHm]; intros [| c s]; simpl; try lia.
    specialize (IHm s). lia.
  - destruct s as [| c s]; simpl; [lia | apply IH].
Qed.

Lemma length_trimStart_le (s : string) :
  (String.length (JsString.trimStart s) <= String.length s)%nat.
Proof.
  induction s as [| c s IH]; simpl; [lia |].
  destruct (JsString.isWhiteSpace c); simpl; lia.
Qed.

Lemma length_trimEnd_le (s : string) :
  (String.length (JsString.trimEnd s) <= String.length s)%nat.
Proof.
  induction s as [| c s IH]; simpl; [lia |].
  destruct (_ && _); simpl; lia.
Qed.

Lemma length_trim_le (s : string) :
  (String.length (JsString.trim s) <= String.length s)%nat.
Proof.
  unfold JsString.trim.
  pose proof (length_trimEnd_le (JsString.trimStart s)).
  pose proof (length_trimStart_le s). lia.
Qed.

(** Within the string, [substr] is the window of the given length cut
    at the end of the string. *)
Lemma substr_window (s : string) (start len : Z) :
  (0 <= start <= JsString.size s)%Z -> (0 <= len)%Z ->
  JsString.substr s start (Some len)
  = String.substring (Z.to_nat start)
      (Z.to_nat (Z.min len (JsString.size s - start))) s.
Proof.
  intros Hs Hl. unfold JsString.substr.
  destruct (start <? 0)%Z eqn:Hneg; [lia |].
  rewrite (Z.min_l start) by lia.
  rewrite (Z.max_l len 0) by lia.
  destruct (_ <=? _)%Z eqn:Hle.
  - apply Z.leb_le in Hle.
    replace (Z.to_nat (Z.min len (JsString.size s - start))) with 0%nat by lia.
    by rewrite substring_zero_length.
  - apply Z.leb_gt in Hle. f_equal. lia.
Qed.

Lemma prefix_cons (a b : ascii) (p s : string) :
  String.prefix (String a p) (String b s)
  = if ascii_dec a b then String.prefix p s else false.
Proof. reflexivity. Qed.

Lemma prefix_app_inv (p s : string) :
  String.prefix p s = true -> exists rest, s = p ++ rest.
Proof.
  revert s. induction p as [| a p IH]; intros s Hp.
  - by exists s.
  - destruct s as [| b s]; [discriminate Hp |].
    rewrite prefix_cons in Hp. destruct (ascii_dec a b) as [<- | _]; [| done].
    destruct (IH s Hp) as [rest ->]. by exists rest.
Qed.

Lemma trimStart_idempotent (s : string) :
  JsString.trimStart (JsString.trimStart s) = JsString.trimStart s.
Proof.
  induction s as [| c s IH]; simpl; [done |].
  destruct (JsString.isWhiteSpace c) eqn:Hc; [done |]. simpl. by rewrite Hc.
Qed.

Lemma trimEnd_idempotent (s : string) :
  JsString.trimEnd (JsString.trimEnd s) = JsString.trimEnd s.
Proof.
  induction s as [| c s IH]; simpl; [done |].
  destruct (JsString.isEmpty (JsString.trimEnd s) && JsString.isWhiteSpace c)
    eqn:Hc; [done |].
  simpl. rewrite IH. by rewrite Hc.
Qed.

(** What [trimStart] returns is empty or starts with a character that
    is not white space, and [trimEnd] leaves such a start in place. *)
Lemma trimStart_trimEnd_trimStart (s : string) :
  JsString.trimStart (JsString.trimEnd (JsString.trimStart s))
  = JsString.trimEnd (JsString.trimStart s).
Proof.
  induction s as [| c s IH]; simpl; [done |].
  destruct (JsString.isWhiteSpace c) eqn:Hc; [done |].
  simpl. rewrite Hc, andb_false_r. simpl. by rewrite Hc.
Qed.

Lemma trim_idempotent (s : string) :
  JsString.trim (JsString.trim s) = JsString.trim s.
Proof.
  unfold JsString.trim.
  by rewrite trimStart_trimEnd_trimStart, trimEnd_idempotent.
Qed.

Lemma split_not_nil (sep : ascii) (s : string) : JsString.split sep s <> [].
Proof.
  destruct s as [| c s]; simpl; [done |].
  destruct (Ascii.eqb c sep); [done |]. by destruct (JsString.split sep s).
Qed.

(** A string without the separator is its own single segment. *)
Lemma split_without_separator (sep : ascii) (s : string) :
  ~ In sep (list_ascii_of_string s) -> JsString.split sep s = [s].
Proof.
  induction s as [| c s IH]; simpl; [done |].
  intros Hnot. destruct (Ascii.eqb_spec c sep) as [-> | Hne]; [tauto |].
  rewrite IH; [done | tauto].
Qed.


(** Splitting undoes joining, for segments without the separator. *)
Lemma split_app_separator (sep : ascii) (first rest : string) :
  ~ In sep (list_ascii_of_string first) ->
  JsString.split sep (first ++ String sep rest)
  = first :: JsString.split sep rest.
Proof.
  induction first as [| c s IH]; intros Hnot.
  - cbv [String.append]. simpl. by rewrite Ascii.eqb_refl.
  - change (String c s ++ String sep rest) with (String c (s ++ String sep rest)).
    simpl in Hnot |- *.
    destruct (Ascii.eqb_spec c sep) as [-> | Hne]; [tauto |].
    rewrite IH; [done | tauto].
Qed.

Lemma split_join (sep : ascii) (segments : list string) :
  segments <> [] ->
  Forall (fun segment => ~ In sep (list_ascii_of_string segment)) segments ->
  JsString.split sep (JsString.join (String sep EmptyString) segments) = segments.
Proof.
  intros Hne Hall. induction Hall as [| first l Hfirst Hall IH]; [done |].
  destruct l as [| second l].
  - simpl. by apply split_without_separator.
  - unfold JsString.join in *. 
    change (String.concat (String sep EmptyString) (first :: second :: l))
      with (first ++ String sep (String.concat (String sep EmptyString) (second :: l))).
    rewrite split_app_separator by done. by rewrite IH.
Qed.

(* ===================================================================== *)
(** ** Further properties of the lifecycle parser                         *)
(* ===================================================================== *)


Lemma isRequestLogEntry_cases (line : string) :
  isRequestLogEntry line = true ->
  JsString.startsWith line startPrefix = true
  \/ JsString.startsWith line endPrefix = true
  \/ JsString.startsWith line reportPrefix = true.
Proof.
  unfold isRequestLogEntry, startPrefix, endPrefix, reportPrefix.
  destruct (JsString.startsWith line "START RequestId: "); [by left |].
  destruct (JsString.startsWith line "END RequestId: "); [right; by left |].
  destruct (JsString.startsWith line "REPORT RequestId: "); [right; by right | done].
Qed.

Lemma startsWith_isRequestLogEntry (line : string) :
  JsString.startsWith line startPrefix = true
  \/ JsString.startsWith line endPrefix = true
  \/ JsString.startsWith line reportPrefix = true ->
  isRequestLogEntry line = true.
Proof.
  unfold isRequestLogEntry, startPrefix, endPrefix, reportPrefix.
  intros [-> | [-> | ->]]; by rewrite ?orb_true_r.
Qed.

(** Exposes the characters of a line known to start with a literal. *)
Ltac expose_prefix H :=
  let rest := fresh "rest" in
  unfold JsString.startsWith, startPrefix, endPrefix, reportPrefix in H;
  apply prefix_app_inv in H as [rest ->];
  cbv [String.append].

Ltac window :=
  rewrite substr_window;
  [| unfold JsString.size; simpl String.length; lia | lia].

Lemma eventName_start (line : string) :
  JsString.startsWith line startPrefix = true ->
  JsString.substr line 0 (Some (JsString.indexOf line " ")) = "START".
Proof.
  intros H. expose_prefix H. unfold JsString.indexOf. cbn. window.
  match goal with
  | |- String.substring _ (Z.to_nat ?m) _ = _ =>
      replace (Z.to_nat m) with 5%nat
        by (unfold JsString.size; simpl String.length; lia)
  end.
  reflexivity.
Qed.

Lemma eventName_end (line : string) :
  JsString.startsWith line endPrefix = true ->
  JsString.substr line 0 (Some (JsString.indexOf line " ")) = "END".
Proof.
  intros H. expose_prefix H. unfold JsString.indexOf. cbn. window.
  match goal with
  | |- String.substring _ (Z.to_nat ?m) _ = _ =>
      replace (Z.to_nat m) with 3%nat
        by (unfold JsString.size; simpl String.length; lia)
  end.
  reflexivity.
Qed.

Lemma eventName_report (line : string) :
  JsString.startsWith line reportPrefix = true ->
  JsString.substr line 0 (Some (JsString.indexOf line " ")) = "REPORT".
Proof.
  intros H. expose_prefix H. unfold JsString.indexOf. cbn. window.
  match goal with
  | |- String.substring _ (Z.to_nat ?m) _ = _ =>
      replace (Z.to_nat m) with 6%nat
        by (unfold JsString.size; simpl String.length; lia)
  end.
  reflexivity.
Qed.

Lemma trim_leading_space_length (s : string) (m : nat) :
  (String.length s <= m)%nat ->
  (String.length (JsString.trim (String " " s)) <= m)%nat.
Proof.
  intros Hs. unfold JsString.trim.
  change (JsString.trimStart (String " " s)) with (JsString.trimStart s).
  pose proof (length_trimEnd_le (JsString.trimStart s)).
  pose proof (length_trimStart_le s). lia.
Qed.

Ltac short_window :=
  unfold fieldValue, JsString.indexOf; cbn; window;
  match goal with
  | |- (String.length (JsString.trim (String.substring _ (Z.to_nat ?m) _)) <= _)%nat =>
      let k := fresh "k" in
      let Hk := fresh "Hk" in
      assert (exists k, Z.to_nat m = S k /\ (k <= 35)%nat) as (k & -> & Hk)
        by (exists (Z.to_nat m - 1)%nat;
            unfold JsString.size; simpl String.length; lia);
      simpl String.substring;
      apply trim_leading_space_length;
      pose proof (length_substring_le 0 k) as Hlen;
      match goal with
      | |- (String.length (String.substring 0 k ?r) <= _)%nat =>
          specialize (Hlen r); lia
      end
  end.

(** The window of 36 characters read after [RequestId:] starts at the
    space that follows the colon, so at most 35 characters are left of
    it once trimmed. *)
Lemma requestId_length (line : string) :
  isRequestLogEntry line = true ->
  (String.length (fieldValue line "RequestId:" (Some 36%Z)) <= 35)%nat.
Proof.
  intros Hentry.
  destruct (isRequestLogEntry_cases line Hentry) as [H | [H | H]];
    expose_prefix H; short_window.
Qed.



Lemma lambdaRequestLogData_start (line : string) :
  JsString.startsWith line startPrefix = true ->
  lambdaRequestLogData line
  = Ok (Some (<["lambdaStats" :=
                 VObj (<["lambdaVersion" := VStr (fieldValue line "Version:" None)]> ∅)]>
                (lifecycleBase "START" line))).
Proof.
  intros H. unfold lambdaRequestLogData.
  rewrite startsWith_isRequestLogEntry by (by left).
  rewrite (eventName_start line H). simpl.
  by rewrite setProp_insert.
Qed.

Lemma lambdaRequestLogData_end (line : string) :
  JsString.startsWith line endPrefix = true ->
  lambdaRequestLogData line
  = Ok (Some (<["lambdaStats" := VObj ∅]> (lifecycleBase "END" line))).
Proof.
  intros H. unfold lambdaRequestLogData.
  rewrite startsWith_isRequestLogEntry by (right; by left).
  rewrite (eventName_end line H). simpl.
  by rewrite setProp_insert.
Qed.

Lemma lambdaRequestLogData_report (line : string) :
  JsString.startsWith line reportPrefix = true ->
  lambdaRequestLogData line
  = do fields <- mapM parseReportField (reportSegments line);
    Ok (Some (<["lambdaStats" := VObj (collectFields fields)]>
                (lifecycleBase "REPORT" line))).
Proof.
  intros H. unfold lambdaRequestLogData.
  rewrite startsWith_isRequestLogEntry by (right; by right).
  rewrite (eventName_report line H). simpl.
  fold (reportSegments line).
  destruct (mapM parseReportField (reportSegments line)); simpl; [| done].
  by rewrite setProp_insert.
Qed.




Lemma list_ascii_of_string_app (a b : string) :
  list_ascii_of_string (a ++ b) = (list_ascii_of_string a ++ list_ascii_of_string b)%list.
Proof.
  induction a as [| c a IH]; [done |].
  change (String c a ++ b) with (String c (a ++ b)). simpl. by rewrite IH.
Qed.

Section LifecycleProperties.

Context `{Engine}.

Lemma parseLambdaLogLine_lifecycle (logGroup line : string)
    (fields : gmap string Value) :
  lambdaRequestLogData line = Ok (Some fields) ->
  parseLambdaLogLine logGroup line = Ok (VObj (<["message" := VStr line]> fields)).
Proof.
  intros Hdata. unfold parseLambdaLogLine. rewrite Hdata. simpl.
  by rewrite setProp_insert.
Qed.

(** Every record of a lifecycle line has exactly the four fields
    [lambdaEvent], [lambdaRequestId], [lambdaStats] and [message]; the
    event is START, END or REPORT, the word the line starts with; the
    message is the line; the stats are a mapping. *)
Theorem lifecycle_record_shape :
  forall (logGroup line : string) (o : gmap string Value),
    isRequestLogEntry line = true ->
    parseLambdaLogLine logGroup line = Ok (VObj o) ->
    dom o = {[ "lambdaEvent"; "lambdaRequestId"; "lambdaStats"; "message" ]}
    /\ o !! "message" = Some (VStr line)
    /\ (exists word,
           In word ["START"; "END"; "REPORT"]
           /\ JsString.startsWith line (word ++ " RequestId: ") = true
           /\ o !! "lambdaEvent" = Some (VStr word))
    /\ (exists stats, o !! "lambdaStats" = Some (VObj stats)).
Proof.
  intros logGroup line o Hentry Hparse.
  destruct (isRequestLogEntry_cases line Hentry) as [Hp | [Hp | Hp]].
  - rewrite (parseLambdaLogLine_lifecycle _ _ _ (lambdaRequestLogData_start line Hp))
      in Hparse.
    injection Hparse as <-. unfold lifecycleBase.
    split; [rewrite !dom_insert_L, dom_empty_L; set_solver |].
    split; [by simplify_map_eq |].
    split; [exists "START"; split; [simpl; tauto | split; [exact Hp | by simplify_map_eq]] |].
    eexists. by simplify_map_eq.
  - rewrite (parseLambdaLogLine_lifecycle _ _ _ (lambdaRequestLogData_end line Hp))
      in Hparse.
    injection Hparse as <-. unfold lifecycleBase.
    split; [rewrite !dom_insert_L, dom_empty_L; set_solver |].
    split; [by simplify_map_eq |].
    split; [exists "END"; split; [simpl; tauto | split; [exact Hp | by simplify_map_eq]] |].
    eexists. by simplify_map_eq.
  - unfold parseLambdaLogLine in Hparse.
    rewrite (lambdaRequestLogData_report line Hp) in Hparse.
    destruct (mapM parseReportField (reportSegments line)) as [fields |];
      simpl in Hparse; [| done].
    rewrite setProp_insert in Hparse by done.
    injection Hparse as <-. unfold lifecycleBase.
    split; [rewrite !dom_insert_L, dom_empty_L; set_solver |].
    split; [by simplify_map_eq |].
    split; [exists "REPORT"; split; [simpl; tauto | split; [exact Hp | by simplify_map_eq]] |].
    eexists. by simplify_map_eq.
Qed.

(** The request identifier of a lifecycle record never has more than 35
    characters: an identifier of 36 characters is cut short. *)
Theorem lifecycle_request_id_at_most_35 :
  forall (logGroup line : string) (o : gmap string Value),
    isRequestLogEntry line = true ->
    parseLambdaLogLine logGroup line = Ok (VObj o) ->
    exists requestId,
      o !! "lambdaRequestId" = Some (VStr requestId)
      /\ (String.length requestId <= 35)%nat.
Proof.
  intros logGroup line o Hentry Hparse.
  exists (fieldValue line "RequestId:" (Some 36%Z)).
  split; [| by apply requestId_length].
  destruct (isRequestLogEntry_cases line Hentry) as [Hp | [Hp | Hp]].
  - rewrite (parseLambdaLogLine_lifecycle _ _ _ (lambdaRequestLogData_start line Hp))
      in Hparse.
    injection Hparse as <-. unfold lifecycleBase. by simplify_map_eq.
  - rewrite (parseLambdaLogLine_lifecycle _ _ _ (lambdaRequestLogData_end line Hp))
      in Hparse.
    injection Hparse as <-. unfold lifecycleBase. by simplify_map_eq.
  - unfold parseLambdaLogLine in Hparse.
    rewrite (lambdaRequestLogData_report line Hp) in Hparse.
    destruct (mapM parseReportField (reportSegments line)) as [fields |];
      simpl in Hparse; [| done].
    rewrite setProp_insert in Hparse by done.
    injection Hparse as <-. unfold lifecycleBase. by simplify_map_eq.
Qed.

(** START and END lines always parse: an END line has empty stats, a
    START line has the one stat [lambdaVersion], the trimmed text after
    [Version:]. *)
Theorem start_and_end_lines_always_parse :
  forall (logGroup line : string),
    JsString.startsWith line startPrefix = true
    \/ JsString.startsWith line endPrefix = true ->
    exists o,
      parseLambdaLogLine logGroup line = Ok (VObj o)
      /\ o !! "lambdaStats"
         = Some (VObj (if JsString.startsWith line startPrefix
                       then <["lambdaVersion" :=
                               VStr (fieldValue line "Version:" None)]> ∅
                       else ∅)).
Proof.
  intros logGroup line [Hp | Hp].
  - rewrite (parseLambdaLogLine_lifecycle _ _ _ (lambdaRequestLogData_start line Hp)).
    eexists. split; [done |]. rewrite Hp. by simplify_map_eq.
  - rewrite (parseLambdaLogLine_lifecycle _ _ _ (lambdaRequestLogData_end line Hp)).
    eexists. split; [done |].
    destruct (JsString.startsWith line startPrefix) eqn:Hs.
    + exfalso. unfold JsString.startsWith, startPrefix, endPrefix in Hs, Hp.
      apply prefix_app_inv in Hs as [rest ->].
      apply prefix_app_inv in Hp as [rest' Heq].
      cbv [String.append] in Heq. discriminate.
    + by simplify_map_eq.
Qed.


End LifecycleProperties.

(** The name of a report field never contains a space. *)
Theorem report_field_name_without_space :
  forall (rawField name : string) (v : Value),
    parseReportField rawField = Ok (name, v) ->
    forall c, In c (list_ascii_of_string name) -> c <> " "%char.
Proof.
  intros rawField name v. unfold parseReportField.
  destruct (map JsString.trim (JsString.split ":" rawField))
    as [| rawName [| rawValue rest]]; [done | done |].
  fold (normalizedName rawName).
  assert (forall u, (String.eqb u "ms" || String.eqb u "MB") = true ->
                    forall c, In c (list_ascii_of_string (normalizedName rawName ++ u)) ->
                              c <> " "%char) as Hunit.
  { intros u Hu c. rewrite list_ascii_of_string_app, in_app_iff.
    intros [Hc | Hc]; [by apply (normalizedName_no_space rawName) |].
    apply orb_true_iff in Hu as [Hu | Hu]; apply String.eqb_eq in Hu; subst u;
      simpl in Hc; intuition (subst; discriminate). }
  destruct (JsString.split " " rawValue) as [| value [| u tl]].
  - intros [= <- <-]. apply normalizedName_no_space.
  - intros [= <- <-]. apply normalizedName_no_space.
  - destruct (String.eqb u "ms" || String.eqb u "MB") eqn:Hu.
    + intros [= <- <-]. by apply Hunit.
    + intros [= <- <-]. apply normalizedName_no_space.
Qed.

(* ===================================================================== *)
(** ** Further properties of the records and of the batch                 *)
(* ===================================================================== *)

Lemma mapM_ok_iff {A B : Type} (f : A -> result B) (xs : list A) (ys : list B) :
  mapM f xs = Ok ys <-> Forall2 (fun x y => f x = Ok y) xs ys.
Proof.
  revert ys. induction xs as [| x l IH]; intros ys; simpl.
  - split; [intros [= <-]; constructor | intros Hall; by inversion Hall].
  - split.
    + destruct (f x) as [y |] eqn:Hx; simpl; [| done].
      destruct (mapM f l) as [ys' |] eqn:Hl; simpl; [| done].
      intros [= <-]. constructor; [done |]. by apply IH.
    + intros Hall. inversion Hall as [| x' y l' ys' Hx Htail]; subst.
      rewrite Hx. simpl. apply IH in Htail. by rewrite Htail.
Qed.

Lemma mapM_throw_iff {A B : Type} (f : A -> result B) (xs : list A) (e : exn) :
  mapM f xs = Throw e
  <-> exists before x after,
        xs = (before ++ x :: after)%list
        /\ Forall (fun x' => exists y, f x' = Ok y) before
        /\ f x = Throw e.
Proof.
  induction xs as [| x l IH]; simpl.
  - split; [done |]. intros (before & x & after & Heq & _). by destruct before.
  - split.
    + destruct (f x) as [y |] eqn:Hx; simpl.
      * destruct (mapM f l) as [ys |] eqn:Hl; simpl; [done |].
        intros [= <-].
        destruct (proj1 IH eq_refl) as (before & x' & after & -> & Hall & Hthrow).
        exists (x :: before), x', after.
        split; [done |]. split; [| done]. constructor; [by exists y | done].
      * intros [= <-]. exists [], x, l. by repeat split.
    + intros (before & x' & after & Heq & Hall & Hthrow).
      destruct before as [| b before]; simpl in Heq; simplify_eq.
      * by rewrite Hthrow.
      * apply Forall_cons in Hall as [[y Hy] Hall]. rewrite Hy. simpl.
        assert (mapM f (before ++ x' :: after)%list = Throw e) as ->; [| done].
        apply IH. by exists before, x', after.
Qed.

Lemma dom_setProp (o : gmap string Value) (k : string) (v : Value) :
  dom o ⊆ dom (setProp o k v) /\ dom (setProp o k v) ⊆ {[ k ]} ∪ dom o.
Proof.
  unfold setProp. destruct (_ && _); [set_solver |].
  rewrite dom_insert_L. set_solver.
Qed.

Lemma dom_enrichStep (o : gmap string Value) (k v : string) :
  dom o ⊆ dom (enrichStep o (k, v))
  /\ dom (enrichStep o (k, v)) ⊆ {[ k; bookkeepingKey k ]} ∪ dom o.
Proof.
  unfold enrichStep.
  destruct (getProp o k) as [old |]; [destruct (truthy old) |].
  - pose proof (dom_setProp o (bookkeepingKey k) old) as [H1 H2].
    pose proof (dom_setProp (setProp o (bookkeepingKey k) old) k (VStr v)) as [H3 H4].
    set_solver.
  - pose proof (dom_setProp o k (VStr v)) as [H1 H2]. set_solver.
  - pose proof (dom_setProp o k (VStr v)) as [H1 H2]. set_solver.
Qed.

(** The enrichment never removes a field, and the only fields it adds
    are the supplemental keys and their bookkeeping entries. *)
Theorem enrichment_keeps_every_field :
  forall (extraFields : StructuredFields) (o : gmap string Value),
    dom o ⊆ dom (enrich extraFields o)
    /\ dom (enrich extraFields o)
       ⊆ dom o ∪ list_to_set extraFields.*1
               ∪ list_to_set (bookkeepingKey <$> extraFields.*1).
Proof.
  intros extraFields. induction extraFields as [| [k v] l IH]; intros o.
  - simpl. set_solver.
  - rewrite enrich_cons.
    destruct (IH (enrichStep o (k, v))) as [H1 H2].
    pose proof (dom_enrichStep o k v) as [H3 H4].
    simpl. set_solver.
Qed.

(** The enrichment never gives a record an own [__proto__] property: a
    supplemental field of that name is dropped. *)
Theorem enrichment_never_defines_proto :
  forall (extraFields : StructuredFields) (o : gmap string Value),
    o !! "__proto__" = None ->
    enrich extraFields o !! "__proto__" = None.
Proof.
  intros extraFields. induction extraFields as [| [k v] l IH]; intros o Hnone;
    [done |].
  rewrite enrich_cons. apply IH.
  destruct (decide (k = "__proto__")) as [-> | Hne].
  - rewrite enrichStep_key. unfold setProp. rewrite Hnone. by simpl.
  - rewrite enrichStep_frame; [done | done |].
    intros Heq. by apply (bookkeepingKey_not_proto k).
Qed.

Lemma enrichment_never_defines_proto_witness :
  enrich [("__proto__", "polluted"); ("env", "staging")]
         (<["env" := VStr "prod"]> ∅) !! "__proto__" = None.
Proof.
  apply (enrichment_never_defines_proto
           [("__proto__", "polluted"); ("env", "staging")]
           (<["env" := VStr "prod"]> ∅)).
  reflexivity.
Defined.

Section RecordProperties.

Context `{Engine}.

Lemma parseNodeLogFormat_short (logGroup line : string) :
  (length (JsString.split "009" line) < 4)%nat ->
  parseNodeLogFormat logGroup line = None.
Proof.
  intros Hshort. unfold parseNodeLogFormat.
  destruct (JsString.split "009" line) as [| d [| r [| l parts]]]; try done.
  replace (4 <=? length (d :: r :: l :: parts))%nat with false; [done |].
  symmetry. apply Nat.leb_gt. exact Hshort.
Qed.

(** The tab-delimited parser declines a line exactly when it has fewer
    than four TAB-separated segments or [Date.parse] rejects the first
    one. *)
Theorem tab_parser_declines_iff :
  forall (logGroup line : string),
    parseNodeLogFormat logGroup line = None
    <-> (length (JsString.split "009" line) < 4)%nat
        \/ Date_parse (default EmptyString (head (JsString.split "009" line))) = None.
Proof.
  intros logGroup line. split.
  - unfold parseNodeLogFormat.
    destruct (JsString.split "009" line) as [| d [| r [| l parts]]];
      try (intros _; left; simpl; lia).
    destruct (4 <=? length (d :: r :: l :: parts))%nat eqn:Hlen;
      [| intros _; left; by apply Nat.leb_gt].
    simpl. destruct (Date_parse d) as [t |] eqn:Hd; [| intros _; by right].
    rewrite bool_decide_eq_true_2 by (by eexists). done.
  - intros [Hshort | Hdate]; [by apply parseNodeLogFormat_short |].
    unfold parseNodeLogFormat.
    destruct (JsString.split "009" line) as [| d [| r [| l parts]]]; try done.
    simpl in Hdate. rewrite Hdate.
    rewrite bool_decide_eq_false_2 by (intros [x Hx]; done).
    by rewrite andb_false_r.
Qed.

(** A line that is no lifecycle line, has fewer than four TAB-separated
    segments and is not JSON yields the record with exactly the trimmed
    message and the three reserved fields, then enriched. *)
Theorem plain_text_record :
  forall (logGroup : string) (logEvent : CloudWatchLogsLogEvent)
         (extraFields : StructuredFields),
    let line := JsString.trim (logEvent_message logEvent) in
    isRequestLogEntry line = false ->
    (length (JsString.split "009" line) < 4)%nat ->
    JSON_parse line = None ->
    JsDate.isValidTime (logEvent_timestamp logEvent) = true ->
    createStructuredLog logGroup logEvent extraFields
    = Ok (Plain
            (enrich extraFields
               (<["cloudwatchLogGroup" := VStr logGroup]>
                  (<["cloudwatchId" := VStr (logEvent_id logEvent)]>
                     (<["@timestamp" :=
                         VStr (JsDate.isoString (logEvent_timestamp logEvent))]>
                        (<["message" := VStr line]> ∅)))))).
Proof.
  intros logGroup logEvent extraFields line Hno Hshort Hjson Hvalid.
  assert (parseLambdaLogLine logGroup line
          = Ok (VObj (<["message" := VStr line]> ∅))) as Hparse.
  { pose proof (fallback_message logGroup line Hno
                  (parseNodeLogFormat_short logGroup line Hshort)) as Hfb.
    subst line. rewrite trim_idempotent in Hfb. by apply Hfb. }
  rewrite (createStructuredLog_valid _ _ _ _ Hparse Hvalid).
  unfold assignReserved, timestampSource.
  rewrite lookup_insert_ne by done. rewrite lookup_empty.
  by rewrite !setProp_insert.
Qed.

(** With a valid ingestion time a record is returned for every START
    and END line and for every line that is no lifecycle line and whose
    JSON value, if it has one, is a mapping. *)
Theorem createStructuredLog_returns_record :
  forall (logGroup : string) (logEvent : CloudWatchLogsLogEvent)
         (extraFields : StructuredFields),
    let line := JsString.trim (logEvent_message logEvent) in
    JsDate.isValidTime (logEvent_timestamp logEvent) = true ->
    JsString.startsWith line startPrefix = true
    \/ JsString.startsWith line endPrefix = true
    \/ (isRequestLogEntry line = false
        /\ forall v, JSON_parse line = Some v -> exists o, v = VObj o) ->
    exists r, createStructuredLog logGroup logEvent extraFields = Ok (Plain r).
Proof.
  intros logGroup logEvent extraFields line Hvalid Hline.
  assert (exists o, parseLambdaLogLine logGroup line = Ok (VObj o)) as [o Hparse].
  { destruct Hline as [Hp | [Hp | [Hno Hjson]]].
    - eexists.
      apply parseLambdaLogLine_lifecycle, (lambdaRequestLogData_start line Hp).
    - eexists.
      apply parseLambdaLogLine_lifecycle, (lambdaRequestLogData_end line Hp).
    - rewrite parseLambdaLogLine_not_lifecycle by done.
      destruct (parseNodeLogFormat logGroup line); [by eexists |].
      unfold parseMessageJson. subst line. rewrite trim_idempotent.
      destruct (JSON_parse _) as [v |] eqn:Hv; [| by eexists].
      destruct (Hjson v eq_refl) as [o ->]. by eexists. }
  eexists. by apply (createStructuredLog_valid _ _ _ _ Hparse Hvalid).
Qed.

(** For a line that parses to a mapping the only exception is the
    [RangeError] of an ingestion time that is no time value, and a truthy
    [timestamp] of the parser shields the record from it. *)
Theorem createStructuredLog_throws_iff :
  forall (logGroup : string) (logEvent : CloudWatchLogsLogEvent)
         (extraFields : StructuredFields) (o : gmap string Value) (e : exn),
    parseLambdaLogLine logGroup (JsString.trim (logEvent_message logEvent))
    = Ok (VObj o) ->
    createStructuredLog logGroup logEvent extraFields = Throw e
    <-> e = RangeError
        /\ JsDate.isValidTime (logEvent_timestamp logEvent) = false
        /\ toBoolean (o !! "timestamp") = false.
Proof.
  intros logGroup logEvent extraFields o e Hparse.
  rewrite (createStructuredLog_mapping _ _ _ _ Hparse).
  unfold timestampOf, readTimestamp, JsDate.toISOString. simpl.
  rewrite (getProp_lookup _ _ timestamp_not_inherited).
  destruct (o !! "timestamp") as [t |]; simpl.
  - destruct (truthy t); simpl; [split; [done | by intros (_ & _ & ?)] |].
    destruct (JsDate.isValidTime _); simpl;
      [split; [done | by intros (_ & ? & _)] |].
    split; [by intros [= <-] | by intros (-> & _)].
  - destruct (JsDate.isValidTime _); simpl;
      [split; [done | by intros (_ & ? & _)] |].
    split; [by intros [= <-] | by intros (-> & _)].
Qed.

(** A supplemental field that is neither named [__proto__] nor the
    bookkeeping entry of another supplemental key ends in the record
    with its supplemental value, whatever the parser or the reserved
    fields put under its name. *)
Theorem supplemental_fields_take_precedence :
  forall (logGroup : string) (logEvent : CloudWatchLogsLogEvent)
         (extraFields : StructuredFields) (o r : gmap string Value) (k v : string),
    parseLambdaLogLine logGroup (JsString.trim (logEvent_message logEvent))
    = Ok (VObj o) ->
    createStructuredLog logGroup logEvent extraFields = Ok (Plain r) ->
    NoDup extraFields.*1 ->
    (k, v) ∈ extraFields ->
    k ≠ "__proto__" ->
    (forall k', k' ∈ extraFields.*1 -> k ≠ bookkeepingKey k') ->
    r !! k = Some (VStr v).
Proof.
  intros logGroup logEvent extraFields o r k v Hparse Hout Hnd Hin Hk Hind.
  apply (createStructuredLog_inv _ _ _ _ _ Hparse) in Hout.
  injection Hout as ->. by apply supplemental_value_wins.
Qed.

(** The records of a batch come one per event and in the order of the
    events. *)
Theorem structuredLogs_in_event_order :
  forall (logGroup : string) (logEvents : list CloudWatchLogsLogEvent)
         (extraFields : StructuredFields) (records : list Publishable),
    structuredLogs logGroup logEvents extraFields = Ok records
    <-> Forall2 (fun logEvent record =>
                   createStructuredLog logGroup logEvent extraFields = Ok record)
                logEvents records.
Proof. intros. apply mapM_ok_iff. Qed.

(** A batch throws exactly when one of its events does, and then with
    the exception of the first such event. *)
Theorem structuredLogs_throws_iff :
  forall (logGroup : string) (logEvents : list CloudWatchLogsLogEvent)
         (extraFields : StructuredFields) (e : exn),
    structuredLogs logGroup logEvents extraFields = Throw e
    <-> exists before logEvent after,
          logEvents = (before ++ logEvent :: after)%list
          /\ Forall (fun earlier =>
                       exists record,
                         createStructuredLog logGroup earlier extraFields = Ok record)
                    before
          /\ createStructuredLog logGroup logEvent extraFields = Throw e.
Proof. intros. apply mapM_throw_iff. Qed.

End RecordProperties.

(* ===================================================================== *)
(** ** Properties of the report stats                                     *)
(* ===================================================================== *)




(* ===================================================================== *)
(** ** Properties of the retention and subscription of log groups         *)
(* ===================================================================== *)

(** The retention is left alone exactly when every group already has the
    configured one; otherwise each call sets the configured retention
    for a listed group that has another retention or none. *)
Theorem setRetention_calls :
  forall (configured : Z) (cloudwatchLogGroups : list LogGroup),
    (setRetention configured cloudwatchLogGroups = []
     <-> Forall (fun logGroup => retentionInDays logGroup = Some configured)
                cloudwatchLogGroups)
    /\ (forall name days,
           In (SetCloudwatchRetention name days)
              (setRetention configured cloudwatchLogGroups)
           <-> days = configured
               /\ exists logGroup,
                    In logGroup cloudwatchLogGroups
                    /\ logGroupName logGroup = name
                    /\ retentionInDays logGroup <> Some configured).
Proof.
  intros configured groups. split.
  - induction groups as [| g l IH]; simpl.
    + split; [constructor | done].
    + unfold setRetention in *. simpl.
      destruct (bool_decide (retentionInDays g = Some configured)) eqn:Hg.
      * apply bool_decide_eq_true_1 in Hg. simpl. rewrite IH.
        split; [by constructor | intros Hall; by apply Forall_cons in Hall as [_ ?]].
      * apply bool_decide_eq_false_1 in Hg. simpl.
        split; [done | intros Hall; by apply Forall_cons in Hall as [? _]].
  - intros name days. unfold setRetention. rewrite in_flat_map. split.
    + intros (g & Hin & Hcall).
      destruct (bool_decide (retentionInDays g = Some configured)) eqn:Hg;
        [done |].
      apply bool_decide_eq_false_1 in Hg.
      destruct Hcall as [Hcall | [Hcall | []]]; [| done].
      injection Hcall as <- <-. split; [done |]. by exists g.
    + intros (-> & g & Hin & <- & Hg). exists g. split; [done |].
      rewrite bool_decide_eq_false_2 by done. by left.
Qed.

Lemma filter_partition {A : Type} (f : A -> bool) (l : list A) :
  (List.filter f l ++ List.filter (fun x => negb (f x)) l)%list ≡ₚ l.
Proof.
  induction l as [| x l IH]; simpl; [done |].
  destruct (f x); simpl.
  - by constructor.
  - rewrite <- Permutation_middle. by constructor.
Qed.

Lemma filter_sublist {A : Type} (f : A -> bool) (l : list A) :
  sublist (List.filter f l) l.
Proof.
  induction l as [| x l IH]; simpl; [constructor |].
  destruct (f x); by constructor.
Qed.

(** Every listed group is passed either to [subscribeGroups] or to
    [unsubscribeGroups], never to both, and each call receives its groups
    in the order of the listing. *)
Theorem every_group_subscribed_or_unsubscribed :
  forall (logNamePrefixes : list string) (logShippingLambdaArn : string)
         (allGroups : list LogGroup),
    let subscribed := logShippingGroups logNamePrefixes logShippingLambdaArn allGroups in
    let unsubscribed :=
      removeShippingGroups logNamePrefixes logShippingLambdaArn allGroups in
    (subscribed ++ unsubscribed)%list ≡ₚ allGroups
    /\ sublist subscribed allGroups
    /\ sublist unsubscribed allGroups
    /\ forall group, In group subscribed -> ~ In group unsubscribed.
Proof.
  intros prefixes arn allGroups subscribed unsubscribed.
  split; [apply filter_partition |].
  split; [apply filter_sublist |]. split; [apply filter_sublist |].
  intros group Hin Hout.
  apply filter_In in Hin as [_ Hyes]. apply filter_In in Hout as [_ Hno].
  rewrite Hyes in Hno. discriminate.
Qed.

(** The log group of the shipping function itself is never subscribed,
    whatever the configured prefixes, and is unsubscribed when listed. *)
Theorem own_log_group_never_subscribed :
  forall (logNamePrefixes : list string) (logShippingLambdaArn : string)
         (allGroups : list LogGroup) (group : LogGroup),
    (In group (logShippingGroups logNamePrefixes logShippingLambdaArn allGroups) ->
     logGroupName group <> logShippingLambdaLogGroupName logShippingLambdaArn)
    /\ (In group allGroups ->
        logGroupName group = logShippingLambdaLogGroupName logShippingLambdaArn ->
        In group (removeShippingGroups logNamePrefixes logShippingLambdaArn allGroups)).
Proof.
  intros prefixes arn allGroups group. split.
  - intros Hin Heq. apply filter_In in Hin as [_ Hyes].
    unfold eligibleForLogShipping in Hyes. rewrite Heq, String.eqb_refl in Hyes.
    by rewrite andb_false_r in Hyes.
  - intros Hin Heq. apply filter_In. split; [done |].
    unfold eligibleForLogShipping. rewrite Heq, String.eqb_refl.
    by rewrite andb_false_r.
Qed.

(** A group eligible under some prefixes is eligible under none
    configured; and once a prefix is configured, further prefixes only add
    groups. *)
Theorem eligibility_and_prefixes :
  forall (logNamePrefixes more : list string) (groupName excludeName : string),
    eligibleForLogShipping logNamePrefixes groupName excludeName = true ->
    eligibleForLogShipping [] groupName excludeName = true
    /\ (logNamePrefixes <> [] ->
        eligibleForLogShipping (logNamePrefixes ++ more)%list groupName excludeName
        = true).
Proof.
  intros prefixes more groupName excludeName. unfold eligibleForLogShipping.
  intros Helig. apply andb_true_iff in Helig as [Hmatch Hnot].
  split; [by rewrite Hnot |].
  intros Hne. rewrite Hnot, andb_true_r.
  destruct prefixes as [| p l]; [done |].
  simpl in Hmatch |- *.
  apply orb_true_iff in Hmatch as [-> | Hl]; [done |].
  rewrite existsb_app, Hl. by rewrite orb_true_r.
Qed.

Lemma eligibility_and_prefixes_witness :
  eligibleForLogShipping [] "/aws/lambda/orders" "/aws/lambda/shipper" = true
  /\ eligibleForLogShipping ["/aws/lambda/"; "/ecs/"] "/aws/lambda/orders"
       "/aws/lambda/shipper" = true.
Proof.
  destruct (eligibility_and_prefixes ["/aws/lambda/"] ["/ecs/"]
              "/aws/lambda/orders" "/aws/lambda/shipper" eq_refl)
    as [Hnone Hmore].
  split; [exact Hnone |]. apply Hmore. discriminate.
Defined.

(** For an ARN made of components without a colon, the excluded group is
    [/aws/lambda/] followed by the seventh component, the function name;
    with fewer than seven components it is [/aws/lambda/undefined]. *)
Theorem excluded_group_of_arn :
  forall (components : list string),
    components <> [] ->
    Forall (fun component => ~ In ":"%char (list_ascii_of_string component))
           components ->
    logShippingLambdaLogGroupName (JsString.join ":" components)
    = "/aws/lambda/" ++ default "undefined" (components !! 6%nat).
Proof.
  intros components Hne Hall.
  unfold logShippingLambdaLogGroupName, logShippingLambdaName.
  by rewrite (split_join ":" components Hne Hall).
Qed.

Lemma excluded_group_of_arn_witness :
  logShippingLambdaLogGroupName
    "arn:aws:lambda:eu-west-1:123456789012:function:shipper"
  = "/aws/lambda/shipper".
Proof.
  apply (excluded_group_of_arn
           ["arn"; "aws"; "lambda"; "eu-west-1"; "123456789012"; "function"; "shipper"]).
  - discriminate.
  - repeat constructor; simpl; intuition discriminate.
Defined.

(* ===================================================================== *)
(** ** The further properties on sample inputs                            *)
(* ===================================================================== *)


Lemma lifecycle_record_shape_witness :
  dom endRecord = {[ "lambdaEvent"; "lambdaRequestId"; "lambdaStats"; "message" ]}.
Proof.
  exact (proj1 (@lifecycle_record_shape referenceEngine "group"
                  "END RequestId: abc" endRecord eq_refl eq_refl)).
Defined.

Lemma lifecycle_request_id_at_most_35_witness :
  exists requestId,
    endRecord !! "lambdaRequestId" = Some (VStr requestId)
    /\ (String.length requestId <= 35)%nat.
Proof.
  exact (@lifecycle_request_id_at_most_35 referenceEngine "group"
           "END RequestId: abc" endRecord eq_refl eq_refl).
Defined.

Lemma start_and_end_lines_always_parse_witness :
  exists o,
    parseLambdaLogLine "group" startLine = Ok (VObj o)
    /\ o !! "lambdaStats"
       = Some (VObj (<["lambdaVersion" := VStr "$LATEST"]> ∅)).
Proof.
  destruct (@start_and_end_lines_always_parse referenceEngine "group" startLine
              (or_introl eq_refl)) as (o & Hparse & Hstats).
  exists o. split; [exact Hparse |]. exact Hstats.
Defined.


Lemma report_field_name_without_space_witness :
  forallb (fun c => negb (Ascii.eqb c " "))
          (list_ascii_of_string "maxMemoryUsedMB") = true.
Proof.
  pose proof (report_field_name_without_space "Max Memory Used: 64 MB"
                "maxMemoryUsedMB" (VNum (JsNumber.Decimal 64 0))
                ltac:(vm_compute; reflexivity)) as Hno.
  apply forallb_forall. intros c Hc.
  apply negb_true_iff, Ascii.eqb_neq. by apply Hno.
Defined.

Lemma plain_text_record_witness :
  createStructuredLog "group" (sampleEvent "  plain text message ") []
  = Ok (Plain
          (<["cloudwatchLogGroup" := VStr "group"]>
             (<["cloudwatchId" := VStr "event-1"]>
                (<["@timestamp" := VStr "2023-01-01T00:00:00.000Z"]>
                   (<["message" := VStr "plain text message"]> ∅))))).
Proof.
  exact (@plain_text_record referenceEngine "group"
           (sampleEvent "  plain text message ") [] eq_refl
           ltac:(vm_compute; lia) eq_refl eq_refl).
Defined.

Lemma createStructuredLog_returns_record_witness :
  exists r,
    createStructuredLog "group" (sampleEvent "END RequestId: abc")
      [("env", "staging")] = Ok (Plain r).
Proof.
  exact (@createStructuredLog_returns_record referenceEngine "group"
           (sampleEvent "END RequestId: abc") [("env", "staging")] eq_refl
           (or_intror (or_introl eq_refl))).
Defined.


Lemma createStructuredLog_throws_iff_witness :
  createStructuredLog "group" (lateEvent "plain text message") [] = Throw RangeError.
Proof.
  apply (proj2 (@createStructuredLog_throws_iff referenceEngine "group"
                  (lateEvent "plain text message") []
                  (<["message" := VStr "plain text message"]> ∅) RangeError eq_refl)).
  repeat split.
Defined.

Lemma supplemental_fields_take_precedence_witness :
  exists r,
    createStructuredLog "group" (sampleEvent jsonEnvProd)
      [("env", "staging"); ("cloudwatchId", "other")] = Ok (Plain r)
    /\ r !! "cloudwatchId" = Some (VStr "other").
Proof.
  eexists. split; [vm_compute; reflexivity |].
  apply (@supplemental_fields_take_precedence referenceEngine "group"
           (sampleEvent jsonEnvProd) [("env", "staging"); ("cloudwatchId", "other")]
           (<["env" := VStr "prod"]> ∅) _ "cloudwatchId" "other").
  - vm_compute. reflexivity.
  - vm_compute. reflexivity.
  - apply (bool_decide_unpack _). vm_compute. exact I.
  - apply (bool_decide_unpack _). vm_compute. exact I.
  - discriminate.
  - intros k' Hk'. cbv [bookkeepingKey String.append]. discriminate.
Defined.

Lemma own_log_group_never_subscribed_witness :
  In {| logGroupName := "/aws/lambda/shipper"; retentionInDays := None |}
     (removeShippingGroups []
        "arn:aws:lambda:eu-west-1:123456789012:function:shipper"
        [ {| logGroupName := "/aws/lambda/orders"; retentionInDays := Some 14%Z |};
          {| logGroupName := "/aws/lambda/shipper"; retentionInDays := None |} ]).
Proof.
  apply (proj2 (own_log_group_never_subscribed []
                  "arn:aws:lambda:eu-west-1:123456789012:function:shipper"
                  [ {| logGroupName := "/aws/lambda/orders";
                       retentionInDays := Some 14%Z |};
                    {| logGroupName := "/aws/lambda/shipper";
                       retentionInDays := None |} ]
                  {| logGroupName := "/aws/lambda/shipper";
                     retentionInDays := None |})).
  - right. by left.
  - reflexivity.
Defined.


(* ===================================================================== *)
(** ** Message portions, white space and fresh supplemental fields        *)
(* ===================================================================== *)

Lemma concat_cons_char (sep : string) (c : ascii) (h : string) (t : list string) :
  String.concat sep (String c h :: t) = String c (String.concat sep (h :: t)).
Proof. by destruct t. Qed.

(** Joining undoes splitting. *)
Lemma join_split (sep : ascii) (s : string) :
  JsString.join (String sep EmptyString) (JsString.split sep s) = s.
Proof.
  unfold JsString.join. induction s as [| c s IH]; simpl; [done |].
  destruct (Ascii.eqb_spec c sep) as [-> | Hne].
  - destruct (JsString.split sep s) as [| h t] eqn:Hs;
      [by apply split_not_nil in Hs |].
    change (String.concat (String sep EmptyString) (EmptyString :: h :: t))
      with (String sep (String.concat (String sep EmptyString) (h :: t))).
    by rewrite IH.
  - destruct (JsString.split sep s) as [| h t] eqn:Hs;
      [by apply split_not_nil in Hs |].
    by rewrite concat_cons_char, IH.
Qed.

Section MessagePortion.

Context `{Engine}.

(** The message portion of a tab-delimited line is everything after its
    third TAB, further TABs included. *)
Theorem tab_message_portion_is_the_rest_of_the_line :
  forall (logGroup dateString lambdaRequestId level message : string),
    ~ In "009"%char (list_ascii_of_string dateString) ->
    ~ In "009"%char (list_ascii_of_string lambdaRequestId) ->
    ~ In "009"%char (list_ascii_of_string level) ->
    is_Some (Date_parse dateString) ->
    parseNodeLogFormat logGroup
      (dateString ++ TAB ++ lambdaRequestId ++ TAB ++ level ++ TAB ++ message)
    = Some (<["level" := VStr level]>
              (<["lambdaRequestId" := VStr lambdaRequestId]>
                 (spreadProps (parseMessageJson message)))).
Proof.
  intros logGroup dateString lambdaRequestId level message Hd Hr Hl Hdate.
  assert (JsString.split "009"
            (dateString ++ TAB ++ lambdaRequestId ++ TAB ++ level ++ TAB ++ message)
          = dateString :: lambdaRequestId :: level :: JsString.split "009" message)
    as Hsplit.
  { unfold TAB.
    change (dateString ++ String "009" EmptyString ++ ?x)
      with (dateString ++ String "009" x).
    rewrite split_app_separator by done.
    change (lambdaRequestId ++ String "009" EmptyString ++ ?x)
      with (lambdaRequestId ++ String "009" x).
    rewrite split_app_separator by done.
    change (level ++ String "009" EmptyString ++ message)
      with (level ++ String "009" message).
    by rewrite split_app_separator. }
  destruct (JsString.split "009" message) as [| part parts] eqn:Hm;
    [by apply split_not_nil in Hm |].
  rewrite (parseNodeLogFormat_recognized _ _ _ _ _ _ _ Hsplit Hdate).
  unfold TAB. rewrite <- Hm. by rewrite join_split.
Qed.

(** White space around the message of an event never matters. *)
Theorem createStructuredLog_ignores_surrounding_space :
  forall (logGroup id : string) (timestamp : Z) (message : string)
         (extraFields : StructuredFields),
    createStructuredLog logGroup
      {| logEvent_id := id; logEvent_timestamp := timestamp;
         logEvent_message := JsString.trim message |} extraFields
    = createStructuredLog logGroup
        {| logEvent_id := id; logEvent_timestamp := timestamp;
           logEvent_message := message |} extraFields.
Proof.
  intros. unfold createStructuredLog, timestampOf, assignReserved. simpl.
  by rewrite trim_idempotent.
Qed.

End MessagePortion.

Lemma enrichStep_fresh (o : gmap string Value) (k v : string) :
  toBoolean (getProp o k) = false -> k ≠ "__proto__" ->
  enrichStep o (k, v) = <[k := VStr v]> o.
Proof.
  intros Hfalse Hk. unfold enrichStep.
  destruct (getProp o k) as [old |]; simpl in Hfalse.
  - rewrite Hfalse. by apply setProp_insert.
  - by apply setProp_insert.
Qed.

(** Supplemental fields under which the record holds nothing truthy are
    simply added: the enriched record is the record overlaid with the
    supplemental mapping, and has no bookkeeping entry of its making. *)
Theorem fresh_supplemental_fields_are_added :
  forall (extraFields : StructuredFields) (o : gmap string Value),
    NoDup extraFields.*1 ->
    (forall k, k ∈ extraFields.*1 ->
               toBoolean (getProp o k) = false /\ k ≠ "__proto__") ->
    enrich extraFields o
    = (VStr <$> (list_to_map extraFields : gmap string string)) ∪ o.
Proof.
  intros extraFields. induction extraFields as [| [k v] l IH]; intros o Hnd Hfresh.
  - simpl. by rewrite fmap_empty, (left_id_L ∅ (∪)).
  - simpl in Hnd. apply NoDup_cons in Hnd as [Hk Hnd].
    destruct (Hfresh k) as [Hfalse Hproto]; [by left |].
    rewrite enrich_cons, (enrichStep_fresh _ _ _ Hfalse Hproto).
    rewrite IH; [| done |].
    + rewrite list_to_map_cons, fmap_insert.
      rewrite <- insert_union_l. symmetry. apply insert_union_r.
      rewrite lookup_fmap. apply fmap_None.
      by apply not_elem_of_list_to_map_1.
    + intros k' Hk'. destruct (Hfresh k') as [Hf Hp]; [by right |].
      split; [| done].
      rewrite <- Hf. f_equal. apply getProp_ext, lookup_insert_ne.
      by intros ->.
Qed.

Lemma tab_message_portion_is_the_rest_of_the_line_witness :
  parseNodeLogFormat "group"
    ("2023-01-01T00:00:00Z" ++ TAB ++ "req-1" ++ TAB ++ "INFO" ++ TAB
     ++ "two" ++ TAB ++ "parts")
  = Some (<["level" := VStr "INFO"]>
            (<["lambdaRequestId" := VStr "req-1"]>
               (<["message" := VStr ("two" ++ TAB ++ "parts")]> ∅))).
Proof.
  refine (eq_trans
            (@tab_message_portion_is_the_rest_of_the_line referenceEngine "group"
               "2023-01-01T00:00:00Z" "req-1" "INFO" ("two" ++ TAB ++ "parts")
               _ _ _ (ex_intro _ 1672531200000%Z eq_refl))
            _).
  - simpl. intuition discriminate.
  - simpl. intuition discriminate.
  - simpl. intuition discriminate.
  - vm_compute. reflexivity.
Defined.

Lemma fresh_supplemental_fields_are_added_witness :
  enrich [("env", "staging"); ("team", "logs")]
         (<["message" := VStr "plain text message"]> ∅)
  = <["env" := VStr "staging"]>
      (<["team" := VStr "logs"]>
         (<["message" := VStr "plain text message"]> ∅)).
Proof.
  refine (eq_trans
            (fresh_supplemental_fields_are_added
               [("env", "staging"); ("team", "logs")]
               (<["message" := VStr "plain text message"]> ∅) _ _)
            _).
  - apply (bool_decide_unpack _). vm_compute. exact I.
  - intros k Hk. simpl in Hk.
    apply elem_of_cons in Hk as [-> | Hk];
      [| apply list_elem_of_singleton in Hk as ->];
      (split; [vm_compute; reflexivity | discriminate]).
  - vm_compute. reflexivity.
Defined.
